(** * LT5-LE7 SR Spectral Indices: a model of the notebook's pipeline

    The notebook [Dissertation/LT5-LE7 SR Spectral Indices.ipynb] builds
    annual composites of Landsat 5 and Landsat 7 surface reflectance with
    the Earth Engine client library.  Its own code is a handful of short
    functions ([cloud_mask], [ndvi], [annual_composite_median],
    [annual_composite_maximum_ndvi]), two collection pipelines and an
    export loop; every raster operation they call is an Earth Engine
    method.

    The file has four parts:
    - a model of the Earth Engine operations the notebook calls (images as
      named bands of partial rasters, property dictionaries, collections,
      reducers), following the Earth Engine API reference;
    - the notebook's functions, transcribed call by call over that model;
    - the properties of the notebook's functions;
    - instances of these properties on small example scenes and archives.

    Pixel values are exact rationals ([Q]): band arithmetic is the
    arithmetic of the reals restricted to the values that occur, and
    rounding of the service's floating-point numbers is not modelled.

    Three more things are outside the model.  Collections are lists of
    images: the element ids ([system:index]) the service keeps on the
    elements of a mapped or merged collection are not represented.
    Evaluation is eager: an error of an expression is an error of the
    step that builds it, where the service raises it when the value is
    asked for, so an [Err] of the export loop stands for an image that
    cannot be computed, not for a task that was not started.  And
    [ee.String] of a property that is not a string is taken to fail;
    the properties that say when [cloud_mask] succeeds assume a sensing
    time that is a string. *)

From Stdlib Require Import ZArith QArith Qround Lia Lqa List String Ascii.
From Stdlib Require Import Sorting.Sorted Sorting.Permutation DecimalString.
From stdpp Require Import gmap strings.
Import ListNotations.

Local Open Scope string_scope.
Local Open Scope list_scope.
Local Open Scope Z_scope.

(** ** Results of server-side evaluation

    An Earth Engine expression either evaluates to a value or fails with a
    message (a band that does not exist, a property of the wrong type).
    The client library builds the expression lazily; the model evaluates
    it eagerly and threads the failure. *)

Inductive result (A : Type) : Type :=
| Ok (a : A)
| Err (msg : string).
Arguments Ok {A} a.
Arguments Err {A} msg.

Global Instance result_ret : MRet result := fun A a => Ok a.

Global Instance result_bind : MBind result := fun A B k r =>
  match r with
  | Ok a => k a
  | Err msg => Err msg
  end.

(** [ee.ImageCollection.map] with a function that can fail is stdpp's
    [mapM] at [result]: the first failure is the failure of the whole
    collection. *)

(** ** Pixels, rasters, properties *)

(** A pixel is a cell of the output grid. *)
Definition pixel : Type := Z * Z.

(** One band: a value at every pixel that is not masked ([None]). *)
Definition raster : Type := pixel -> option Q.

(** Values of the properties the notebook reads and writes: strings
    ([SENSING_TIME], [year], [variable]) and numbers ([CLOUD_COVER_LAND],
    [system:time_start]). *)
Inductive property : Type :=
| PString (s : string)
| PNumber (q : Q).

Definition is_nonzero (v : Q) : bool := negb (Qeq_bool v 0).

Definition Qbool (b : bool) : Q := if b then 1%Q else 0%Q.

(** ** Calendar arithmetic

    [system:time_start] is in milliseconds since 1970-01-01T00:00 UTC.
    Day numbers count days since that date in the proleptic Gregorian
    calendar. *)

Definition millis_per_day : Z := 86400000.

(** The day number of the civil date [y]-[m]-[d]. *)
Definition days_from_civil (y m d : Z) : Z :=
  let y' := if m <=? 2 then y - 1 else y in
  let era := y' / 400 in
  let yoe := y' - era * 400 in
  let mp := if m <=? 2 then m + 9 else m - 3 in
  let doy := (153 * mp + 2) / 5 + d - 1 in
  let doe := yoe * 365 + yoe / 4 - yoe / 100 + doy in
  era * 146097 + doe - 719468.

(** The civil year of a day number. *)
Definition year_of_days (z : Z) : Z :=
  let z' := z + 719468 in
  let era := z' / 146097 in
  let doe := z' - era * 146097 in
  let yoe := (doe - doe / 1460 + doe / 36524 - doe / 146096) / 365 in
  let doy := doe - (365 * yoe + yoe / 4 - yoe / 100) in
  let mp := (5 * doy + 2) / 153 in
  let m := if mp <? 10 then mp + 3 else mp - 9 in
  yoe + era * 400 + (if m <=? 2 then 1 else 0).

Definition day_number (t : Q) : Z := Qfloor t / millis_per_day.

(** The day of the year of a timestamp, 1 for the first of January. *)
Definition day_of_year (t : Q) : Z :=
  let d := day_number t in
  d - days_from_civil (year_of_days d) 1 1 + 1.

(** Dates written [YYYY-MM-DD], as the notebook passes them to
    [filterDate]. *)
Definition digit_value (c : ascii) : option Z :=
  let n := Z.of_nat (nat_of_ascii c) in
  if (48 <=? n) && (n <=? 57) then Some (n - 48) else None.

Fixpoint parse_digits (s : string) (acc : Z) : option Z :=
  match s with
  | EmptyString => Some acc
  | String c s' =>
      match digit_value c with
      | Some d => parse_digits s' (10 * acc + d)
      | None => None
      end
  end.

Definition parse_date (s : string) : option (Z * Z * Z) :=
  match String.get 4 s, String.get 7 s,
        parse_digits (substring 0 4 s) 0,
        parse_digits (substring 5 2 s) 0,
        parse_digits (substring 8 2 s) 0 with
  | Some "-"%char, Some "-"%char, Some y, Some m, Some d =>
      if Nat.eqb (String.length s) 10 then Some (y, m, d) else None
  | _, _, _, _, _ => None
  end.

(** Midnight UTC at the start of a date, in milliseconds. *)
Definition date_millis (s : string) : result Z :=
  match parse_date s with
  | Some (y, m, d) => Ok (days_from_civil y m d * millis_per_day)
  | None => Err (String.append "Date: cannot parse " s)
  end.

(** ** The Earth Engine operations the notebook calls

    Region geometries and scene footprints are evaluated by the service;
    the model takes their type and the three geometric operations the
    notebook relies on as parameters. *)

Section EarthEngine.

Context {geometry : Type}.
Variable intersects : geometry -> geometry -> bool.
Variable contains : geometry -> pixel -> bool.
Variable bounds : geometry -> geometry.

(** [ee.Image]: named bands in order, a property dictionary, and a
    footprint ([None] for an unbounded image such as a constant or a
    composite). *)
Record Image : Type := mkImage {
  bands : list (string * raster);
  properties : gmap string property;
  footprint : option geometry
}.

Definition bandNames (img : Image) : list string := map fst (bands img).

Fixpoint find_band (name : string) (bs : list (string * raster)) : option raster :=
  match bs with
  | [] => None
  | (n, r) :: bs' => if String.eqb n name then Some r else find_band name bs'
  end.

(** The value of band [name] at pixel [p]; masked when there is no such
    band. *)
Definition band_value (img : Image) (name : string) (p : pixel) : option Q :=
  match find_band name (bands img) with
  | Some r => r p
  | None => None
  end.

(** [ee.Image(c)]: one band named [constant]. *)
Definition constant (c : Q) : Image :=
  mkImage [("constant", fun _ => Some c)] ∅ None.

(** [img.get(key)] and [img.set({key: value})]; setting a null value
    leaves the key without a value. *)
Definition image_get (img : Image) (key : string) : option property :=
  properties img !! key.

Definition image_set (key : string) (value : option property) (img : Image) : Image :=
  mkImage (bands img)
          (match value with
           | Some v => <[key := v]> (properties img)
           | None => delete key (properties img)
           end)
          (footprint img).

(** [img.select(names, newNames)]: the named bands in the order asked
    for, renamed; metadata is kept.  A name that matches no band is an
    error. *)
Definition select_as (names new_names : list string) (img : Image) : result Image :=
  bs ← mapM (fun nn : string * string =>
               match find_band nn.1 (bands img) with
               | Some r => Ok (nn.2, r)
               | None => Err (String.append "Image.select: no band named " nn.1)
               end) (combine names new_names);
  Ok (mkImage bs (properties img) (footprint img)).

Definition select (names : list string) (img : Image) : result Image :=
  select_as names names img.

(** Pixel-wise operations produce the computed bands under the names of
    the input bands; the properties of the input are not carried over
    (which is why the notebook sets [year] again after every one). *)
Definition map_bands (f : raster -> raster) (img : Image) : Image :=
  mkImage (map (fun b : string * raster => (b.1, f b.2)) (bands img)) ∅ (footprint img).

Definition pointwise (f : Q -> Q) (r : raster) : raster :=
  fun p => option_map f (r p).

Definition pointwise2 (f : Q -> Q -> Q) (r1 r2 : raster) : raster :=
  fun p => match r1 p, r2 p with
           | Some a, Some b => Some (f a b)
           | _, _ => None
           end.

(** [img.bitwiseAnd(m)] with an integer constant. *)
Definition bitwiseAnd (img : Image) (m : Z) : Image :=
  map_bands (pointwise (fun v => inject_Z (Z.land (Qfloor v) m))) img.

(** [img.eq(c)]: 1 where the value equals [c], 0 elsewhere. *)
Definition image_eq (img : Image) (c : Q) : Image :=
  map_bands (pointwise (fun v => Qbool (Qeq_bool v c))) img.

(** [img.divide(c)] with a constant. *)
Definition divide (img : Image) (c : Q) : Image :=
  map_bands (pointwise (fun v => v / c)%Q) img.

(** Two-image operations pair the bands: a one-band image is used
    against every band of the other, images with the same number of bands
    are paired in order, anything else is an error. *)
Definition pair_bands (f : raster -> raster -> raster) (a b : Image) : result Image :=
  match bands a, bands b with
  | _, [(_, rb)] =>
      Ok (mkImage (map (fun x : string * raster => (x.1, f x.2 rb)) (bands a)) ∅ (footprint a))
  | [(_, ra)], _ =>
      Ok (mkImage (map (fun x : string * raster => (x.1, f ra x.2)) (bands b)) ∅ (footprint a))
  | bsa, bsb =>
      if Nat.eqb (length bsa) (length bsb)
      then Ok (mkImage (map (fun xy : (string * raster) * (string * raster) =>
                               (xy.1.1, f xy.1.2 xy.2.2)) (combine bsa bsb))
                       ∅ (footprint a))
      else Err "Images must contain the same number of bands or only 1 band"
  end.

(** [a.And(b)]: 1 where both values are non-zero. *)
Definition image_And (a b : Image) : result Image :=
  pair_bands (pointwise2 (fun x y => Qbool (is_nonzero x && is_nonzero y))) a b.

(** [img.updateMask(mask)]: a pixel stays valid where it was valid and
    the mask is valid and non-zero.  Metadata and footprint are kept. *)
Definition mask_raster (r m : raster) : raster :=
  fun p => match m p with
           | Some v => if is_nonzero v then r p else None
           | None => None
           end.

Definition updateMask (img mask : Image) : result Image :=
  out ← pair_bands mask_raster img mask;
  Ok (mkImage (bands out) (properties img) (footprint img)).

(** [input.where(test, value)]: the value where the test is valid and
    non-zero, the input elsewhere (also where test or value is masked);
    nothing is done where the input is masked. *)
Definition where_raster (test value input : raster) : raster :=
  fun p => match input p with
           | None => None
           | Some i => match test p, value p with
                       | Some t, Some v => if is_nonzero t then Some v else Some i
                       | _, _ => Some i
                       end
           end.

Definition image_where (input test value : Image) : result Image :=
  match bands test, bands value with
  | [(_, t)], [(_, v)] =>
      Ok (mkImage (map (fun x : string * raster => (x.1, where_raster t v x.2)) (bands input))
                  (properties input) (footprint input))
  | _, _ => Err "Image.where: test and value must have one band"
  end.

(** [img.clip(g)]: data outside the geometry is masked. *)
Definition clip (g : geometry) (img : Image) : Image :=
  mkImage (map (fun x : string * raster =>
                  (x.1, fun p => if contains g p then x.2 p else None)) (bands img))
          (properties img) (Some g).


(** *** Reducers *)

(** A reducer turns the valid inputs into one output, or into no output
    (a masked pixel) when it has nothing to say. *)
Definition reducer : Type := list Q -> option Q.

(** [ee.Reducer.anyNonZero()]: 1 if any input is non-zero, 0 otherwise. *)
Definition Reducer_anyNonZero : reducer :=
  fun vs => Some (Qbool (existsb is_nonzero vs)).

(** [ee.Reducer.max()]: the largest input; no output without inputs. *)
Definition Qmax_bool (a b : Q) : Q := if Qle_bool a b then b else a.

Definition Reducer_max : reducer :=
  fun vs => match vs with
            | [] => None
            | v :: vs' => Some (fold_left Qmax_bool vs' v)
            end.

(** [ee.Reducer.median()], computed directly from the sorted inputs: the
    middle one, or the mean of the two middle ones; no output without
    inputs. *)
Fixpoint insert_sorted (x : Q) (l : list Q) : list Q :=
  match l with
  | [] => [x]
  | y :: l' => if Qle_bool x y then x :: l else y :: insert_sorted x l'
  end.

Definition sort_values (vs : list Q) : list Q := fold_right insert_sorted [] vs.

Definition Reducer_median : reducer :=
  fun vs =>
    let s := sort_values vs in
    let n := length s in
    if Nat.odd n then s !! Nat.div n 2
    else match s !! (Nat.div n 2 - 1)%nat, s !! Nat.div n 2 with
         | Some a, Some b => Some ((a + b) / 2)%Q
         | _, _ => None
         end.

(** *** Neighbourhoods *)

(** [ee.Kernel.square(radius)] in pixels: every offset of the
    [(2 radius + 1)]-square, all with the same non-zero weight. *)
Definition kernel : Type := list (Z * Z).

Definition offsets (radius : Z) : list Z :=
  map (fun k : nat => Z.of_nat k - radius) (seq 0 (Z.to_nat (2 * radius + 1))).

Definition square (radius : Z) : kernel :=
  list_prod (offsets radius) (offsets radius).

(** The valid values of [r] in the window of [k] around [p]. *)
Definition neighborhood (k : kernel) (r : raster) (p : pixel) : list Q :=
  omap (fun o : Z * Z => r (p.1 + o.1, p.2 + o.2)) k.

(** [img.reduceNeighborhood(reducer, kernel)]: the reducer over the valid
    pixels of the window; with the default [skipMasked] the output is
    masked where the input pixel itself is masked. *)
Definition reduceNeighborhood (red : reducer) (k : kernel) (img : Image) : Image :=
  map_bands (fun r p => match r p with
                        | None => None
                        | Some _ => red (neighborhood k r p)
                        end) img.

(** *** Normalized difference *)

(** Modelled from the spec: [ee.Image.normalizedDifference] is Earth
    Engine code, not the notebook's.  It computes
    [(first - second) / (first + second)]; per the API reference a
    negative value in either input masks the output pixel, the output
    band is named [nd] and the input's properties are not retained; per
    section 4.4 of the specification a zero sum gives a masked pixel. *)
Definition normalized_difference (a b : Q) : option Q :=
  if Qle_bool 0 a && Qle_bool 0 b && negb (Qeq_bool (a + b) 0)
  then Some ((a - b) / (a + b))%Q
  else None.

Definition normalizedDifference (names : list string) (img : Image) : result Image :=
  match names with
  | [n1; n2] =>
      match find_band n1 (bands img), find_band n2 (bands img) with
      | Some r1, Some r2 =>
          Ok (mkImage [("nd", fun p => match r1 p, r2 p with
                                       | Some a, Some b => normalized_difference a b
                                       | _, _ => None
                                       end)]
                      ∅ (footprint img))
      | _, _ => Err "Image.normalizedDifference: no such band"
      end
  | _ => Err "Image.normalizedDifference: two band names expected"
  end.

(** *** Collections *)

(** [ee.ImageCollection]: the images in order. *)
Definition ImageCollection : Type := list Image.

Inductive operator : Type := equals | less_than.

Definition compare_property (op : operator) (a b : property) : bool :=
  match op, a, b with
  | equals, PString s, PString t => String.eqb s t
  | equals, PNumber x, PNumber y => Qeq_bool x y
  | less_than, PString s, PString t => String.ltb s t
  | less_than, PNumber x, PNumber y => negb (Qle_bool y x)
  | _, _, _ => false
  end.

(** [c.filterMetadata(name, operator, value)]: an image without the
    property does not pass. *)
Definition metadata_passes (name : string) (op : operator) (value : property)
    (img : Image) : bool :=
  match image_get img name with
  | Some v => compare_property op v value
  | None => false
  end.

Definition filterMetadata (name : string) (op : operator) (value : property)
    (c : ImageCollection) : ImageCollection :=
  List.filter (metadata_passes name op value) c.

(** [c.filterBounds(region)]: the images whose footprint intersects the
    region. *)
Definition bounds_pass (region : geometry) (img : Image) : bool :=
  match footprint img with
  | Some g => intersects g region
  | None => true
  end.

Definition filterBounds (region : geometry) (c : ImageCollection) : ImageCollection :=
  List.filter (bounds_pass region) c.

(** [c1.merge(c2)]: all images of both, nothing dropped. *)
Definition merge (c1 c2 : ImageCollection) : ImageCollection := c1 ++ c2.

(** [c.median()] and [c.max()]: bands are matched by name, taken from the
    first image; each output pixel reduces the valid values of that band
    across the collection.  An empty collection gives an image without
    bands. *)
Definition reduce_images (red : reducer) (c : ImageCollection) : Image :=
  match c with
  | [] => mkImage [] ∅ None
  | first :: _ =>
      mkImage (map (fun n : string =>
                      (n, fun p => red (omap (fun img : Image => band_value img n p) c)))
                   (bandNames first))
              ∅ None
  end.

Definition median (c : ImageCollection) : Image := reduce_images Reducer_median c.

Definition collection_max (c : ImageCollection) : Image := reduce_images Reducer_max c.


(** [c.filterDate(start, end)]: [system:time_start] at or after the start
    and strictly before the end. *)
Definition date_passes (start_ms end_ms : Z) (img : Image) : bool :=
  match image_get img "system:time_start" with
  | Some (PNumber t) => Qle_bool (inject_Z start_ms) t && negb (Qle_bool (inject_Z end_ms) t)
  | _ => false
  end.

Definition filterDate (start_date end_date : string) (c : ImageCollection)
    : result ImageCollection :=
  s ← date_millis start_date;
  e ← date_millis end_date;
  Ok (List.filter (date_passes s e) c).

(** [ee.Filter.dayOfYear(first, last)]: the day of the year of
    [system:time_start] within the range, both ends included; a range
    whose end precedes its start wraps around the new year. *)
Definition dayOfYear (first last : Z) (img : Image) : bool :=
  match image_get img "system:time_start" with
  | Some (PNumber t) =>
      let d := day_of_year t in
      if first <=? last then (first <=? d) && (d <=? last)
      else (first <=? d) || (d <=? last)
  | _ => false
  end.

(** ** The notebook *)

(** *** Functions (second code cell) *)

(** Calculates the normalized difference vegetation index (NDVI). *)
Definition ndvi (img : Image) : result Image :=
  nd ← normalizedDifference ["NIR"; "red"] img;
  Ok (image_set "variable" (Some (PString "NDVI"))
        (image_set "year" (image_get img "year") nd)).

(** Applies a cloud mask to an image based on the QA band of the Landsat
    data.  [ee.String(img.get('SENSING_TIME'))] needs a string. *)
Definition cloud_mask (img : Image) : result Image :=
  (* Bits 3 and 5 are cloud shadow and cloud, respectively *)
  let cloud_shadow_bit_mask := 2 ^ 3 in
  let clouds_bit_mask := 2 ^ 5 in
  let water_mask := 2 ^ 2 in (* Bit 2 is water *)
  (* Get the pixel QA band *)
  qa ← select ["pixel_qa"] img;
  (* Both flags should be set to zero, indicating clear conditions *)
  m1 ← image_And (image_eq (bitwiseAnd qa cloud_shadow_bit_mask) 0)
                 (image_eq (bitwiseAnd qa clouds_bit_mask) 0);
  m2 ← image_And m1 (image_eq (bitwiseAnd qa water_mask) 0);
  let mask := reduceNeighborhood Reducer_anyNonZero (square 1) m2 in
  (* NOTE: Also mask those pixels that are adjacent to cloud, cloud shadow, or water *)
  (* Return the masked image, scaled to [0, 1] *)
  masked ← updateMask img mask;
  out ← select_as ["B1"; "B2"; "B3"; "B4"; "B5"; "B7"; "pixel_qa"]
                  ["blue"; "green"; "red"; "NIR"; "SWIR1"; "SWIR2"; "pixel_qa"]
                  (divide masked 10000);
  match image_get img "SENSING_TIME" with
  | Some (PString t) =>
      Ok (image_set "year" (Some (PString (substring 0 4 t)))
            (image_set "date" (Some (PString t)) out))
  | _ => Err "String: SENSING_TIME is not a string"
  end.

(** Creates an annual composite, given the total collection of images
    and the year in which a subset of them should be composited. *)
Definition annual_composite_median (collection : ImageCollection) (year : string) : Image :=
  image_set "year" (Some (PString year))
    (median (filterMetadata "year" equals (PString year) collection)).

(** The same for a maximum NDVI composite. *)
Definition annual_composite_maximum_ndvi (collection : ImageCollection) (year : string)
    : result Image :=
  ndvis ← mapM ndvi (filterMetadata "year" equals (PString year) collection);
  Ok (image_set "year" (Some (PString year)) (collection_max ndvis)).


(** *** Assets and workspace (first, third and fourth code cells)

    The notebook's inputs are assets of the service: the study region
    [detroit_msa], the JRC global surface water image, the two Landsat
    surface reflectance archives, and the never-cultivated mask [cdl] the
    first cell derives from the Cropland Data Layer. *)

(** [ee.batch.Export.image.toDrive(...)]: what one started task was
    given. *)
Record ExportTask : Type := mkExportTask {
  image : Image;
  description : string;
  region : geometry;
  folder : string;
  scale : Z;
  crs : string
}.

(** Python's [range(a, b)] and ['%d' % n]. *)
Definition range (a b : Z) : list Z :=
  map (fun k : nat => a + Z.of_nat k) (seq 0 (Z.to_nat (b - a))).

Definition format_d (n : Z) : string := NilZero.string_of_int (Z.to_int n).

Section Workspace.

Variable detroit_msa : geometry.
Variable global_surface_water : Image.
Variable cdl : Image.
Variable LT05 LE07 : ImageCollection.

(** Water mask: 1, replaced by 0 where [max_extent] is set. *)
Definition water : result Image :=
  max_extent ← select ["max_extent"] global_surface_water;
  image_where (constant 1) max_extent (constant 0).

Definition combined_dates : list string :=
  ["1995"; "1996"; "1997"; "1998"; "1999"; "2000"; "2001"; "2002"; "2003"; "2004";
   "2005"; "2006"; "2007"; "2008"; "2009"; "2010"; "2011"; "2012"; "2013"; "2014";
   "2015"].

Definition lt5_collection : result ImageCollection :=
  c ← filterDate "1995-01-01" "2015-12-31" LT05;
  let c := List.filter (dayOfYear 121 273) c in
  let c := filterMetadata "CLOUD_COVER_LAND" less_than (PNumber 80) c in
  let c := filterBounds detroit_msa c in
  c ← mapM cloud_mask c;
  mapM (select ["blue"; "green"; "red"; "NIR"; "SWIR1"; "SWIR2"]) c.

Definition le7_collection : result ImageCollection :=
  c ← filterDate "1995-01-01" "2015-12-31" LE07;
  let c := List.filter (dayOfYear 121 273) c in
  let c := filterMetadata "CLOUD_COVER_LAND" less_than (PNumber 80) c in
  let c := filterBounds detroit_msa c in
  c ← mapM cloud_mask c;
  mapM (select ["blue"; "green"; "red"; "NIR"; "SWIR1"; "SWIR2"]) c.

Definition lt5_le7_collection : result ImageCollection :=
  lt5 ← lt5_collection;
  le7 ← le7_collection;
  Ok (merge lt5 le7).

Definition lt5_le7_ndvi : result ImageCollection :=
  c ← lt5_le7_collection;
  mapM ndvi c.

(** Median composites per year, clipped, then transformed to NDVI. *)
Definition composites : result ImageCollection :=
  c ← lt5_le7_collection;
  mapM ndvi (map (clip detroit_msa)
               (map (fun year => annual_composite_median c year) combined_dates)).

Definition composites_ndvi_first : result ImageCollection :=
  c ← lt5_le7_collection;
  imgs ← mapM (fun year => annual_composite_maximum_ndvi c year) combined_dates;
  Ok (map (clip detroit_msa) imgs).

(** The export loop: the tasks it starts, in order. *)
Definition export_tasks : result (list ExportTask) :=
  comps ← composites_ndvi_first;
  water ← water;
  mapM (fun i : nat =>
          match comps !! i with
          | None => Err "List.get: index out of bounds"
          | Some img =>
              (* Mask out permanent water, recent cultivated areas *)
              m ← updateMask img water;
              img_masked ← updateMask m cdl;
              match range 1995 2016 !! i with
              | None => Err "IndexError: list index out of range"
              | Some year =>
                  Ok (mkExportTask img_masked
                        (String.append "LT5-LE7_SR_Maximum_NDVI_" (format_d year))
                        (bounds detroit_msa) "EarthEngine" 30 "EPSG:32617")
              end
          end) (seq 0 (length comps)).

End Workspace.

End EarthEngine.

(** ** Forms used in the statements *)

(** A quality value is contaminated when its cloud bit (5), cloud-shadow
    bit (3) or water bit (2) is set. *)
Definition contaminated (q : Q) : bool :=
  Z.testbit (Qfloor q) 5 || Z.testbit (Qfloor q) 3 || Z.testbit (Qfloor q) 2.

(** The provisional clear-sky raster: 1 where the quality value is not
    contaminated, 0 where it is. *)
Definition provisional (qa : raster) : raster :=
  pointwise (fun q => Qbool (negb (contaminated q))) qa.

(** The mask raster [cloud_mask] builds from the quality band, term by
    term. *)
Definition code_mask (qa : raster) : raster :=
  let e := fun m : Z => pointwise (fun v => Qbool (Qeq_bool v 0))
                          (pointwise (fun v => inject_Z (Z.land (Qfloor v) m)) qa) in
  let andf := pointwise2 (fun x y => Qbool (is_nonzero x && is_nonzero y)) in
  let m2 := andf (andf (e (2 ^ 3)) (e (2 ^ 5))) (e (2 ^ 2)) in
  fun p => match m2 p with
           | None => None
           | Some _ => Reducer_anyNonZero (neighborhood (square 1) m2 p)
           end.

(** What [cloud_mask] makes of one band. *)
Definition rescaled (qa r : raster) : raster :=
  pointwise (fun v => v / 10000)%Q (mask_raster r (code_mask qa)).

(** Whether the mask keeps a pixel: the quality value is valid and the
    neighbourhood reduction found a non-zero provisional value. *)
Definition kept (qa : raster) (p : pixel) : bool :=
  match qa p with
  | None => false
  | Some _ => existsb is_nonzero (neighborhood (square 1) (provisional qa) p)
  end.

(** The bands [cloud_mask] selects, with their canonical names. *)
Definition band_renames : list (string * string) :=
  [("B1", "blue"); ("B2", "green"); ("B3", "red"); ("B4", "NIR");
   ("B5", "SWIR1"); ("B7", "SWIR2"); ("pixel_qa", "pixel_qa")].

Definition reflectance_bands : list (string * string) :=
  [("B1", "blue"); ("B2", "green"); ("B3", "red"); ("B4", "NIR");
   ("B5", "SWIR1"); ("B7", "SWIR2")].

Definition canonical_bands : list string :=
  ["blue"; "green"; "red"; "NIR"; "SWIR1"; "SWIR2"].

(** Whether a scene's year label is [year]. *)
Definition has_year {geometry : Type} (year : string) (img : @Image geometry) : bool :=
  match image_get img "year" with
  | Some (PString s) => String.eqb s year
  | _ => false
  end.

(** The vegetation index of one scene at one pixel, when it has one. *)
Definition index_of {geometry : Type} (img : @Image geometry) (p : pixel) : option Q :=
  match ndvi img with
  | Ok out => band_value out "nd" p
  | Err _ => None
  end.

(** The two halves of the temporal window, on a timestamp: the date
    between 1995-01-01 and 2015-12-31, both days included, and the day of
    the year between 121 and 273. *)
Definition in_date_range (t : Q) : Prop :=
  days_from_civil 1995 1 1 <= day_number t <= days_from_civil 2015 12 31.

Definition in_season (t : Q) : Prop := 121 <= day_of_year t <= 273.

(** A raw scene [cloud_mask] accepts: the seven bands it selects and a
    sensing time. *)
Definition raw_scene_ok {geometry : Type} (img : @Image geometry) : Prop :=
  (forall raw canon, In (raw, canon) band_renames -> is_Some (find_band raw (bands img))) /\
  exists t, image_get img "SENSING_TIME" = Some (PString t).

(** What the assembler does to one surviving scene. *)
Definition preprocessed {geometry : Type} (raw img : @Image geometry) : Prop :=
  exists out, cloud_mask raw = Ok out /\ select canonical_bands out = Ok img.

(** The four filters of the pipeline as one test. *)
Definition passes {geometry : Type} (intersects : geometry -> geometry -> bool)
    (region : geometry) (img : @Image geometry) : bool :=
  date_passes (9131 * millis_per_day) (16800 * millis_per_day) img
  && dayOfYear 121 273 img
  && metadata_passes "CLOUD_COVER_LAND" less_than (PNumber 80) img
  && bounds_pass intersects region img.

(** A raw scene qualifies for the assembled collection when it
    intersects the region (an unbounded image intersects every region),
    its timestamp lies in the temporal window, and its cloud cover over
    land is below 80. *)
Definition qualifies {geometry : Type} (intersects : geometry -> geometry -> bool)
    (region : geometry) (img : @Image geometry) : Prop :=
  match footprint img with
  | Some g => intersects g region = true
  | None => True
  end /\
  (exists t, image_get img "system:time_start" = Some (PNumber t) /\
             in_date_range t /\ in_season t) /\
  (exists cover, image_get img "CLOUD_COVER_LAND" = Some (PNumber cover) /\
                 (cover < 80)%Q).

(** Where the surface water image indicates water: [max_extent] valid
    and non-zero. *)
Definition water_indicated {geometry : Type} (surface_water : @Image geometry)
    (p : pixel) : bool :=
  match band_value surface_water "max_extent" p with
  | Some v => is_nonzero v
  | None => false
  end.

(** The value of the never-cultivated mask (a one-band image). *)
Definition never_cultivated {geometry : Type} (cdl : @Image geometry) (p : pixel)
    : option Q :=
  match bands cdl with
  | (_, m) :: _ => m p
  | [] => None
  end.

(** The description the export gives the task of a year. *)
Definition description_of (year : Z) : string :=
  String.append "LT5-LE7_SR_Maximum_NDVI_" (format_d year).

(** The descriptions of the 21 tasks, written out. *)
Definition export_descriptions : list string :=
  ["LT5-LE7_SR_Maximum_NDVI_1995"; "LT5-LE7_SR_Maximum_NDVI_1996";
   "LT5-LE7_SR_Maximum_NDVI_1997"; "LT5-LE7_SR_Maximum_NDVI_1998";
   "LT5-LE7_SR_Maximum_NDVI_1999"; "LT5-LE7_SR_Maximum_NDVI_2000";
   "LT5-LE7_SR_Maximum_NDVI_2001"; "LT5-LE7_SR_Maximum_NDVI_2002";
   "LT5-LE7_SR_Maximum_NDVI_2003"; "LT5-LE7_SR_Maximum_NDVI_2004";
   "LT5-LE7_SR_Maximum_NDVI_2005"; "LT5-LE7_SR_Maximum_NDVI_2006";
   "LT5-LE7_SR_Maximum_NDVI_2007"; "LT5-LE7_SR_Maximum_NDVI_2008";
   "LT5-LE7_SR_Maximum_NDVI_2009"; "LT5-LE7_SR_Maximum_NDVI_2010";
   "LT5-LE7_SR_Maximum_NDVI_2011"; "LT5-LE7_SR_Maximum_NDVI_2012";
   "LT5-LE7_SR_Maximum_NDVI_2013"; "LT5-LE7_SR_Maximum_NDVI_2014";
   "LT5-LE7_SR_Maximum_NDVI_2015"].

(** The two things [cloud_mask] reads of a raw scene: the seven bands it
    selects, and a sensing time that is a string. *)
Definition raw_bands_ok {geometry : Type} (img : @Image geometry) : Prop :=
  forall raw canon, In (raw, canon) band_renames -> is_Some (find_band raw (bands img)).

Definition sensing_time_ok {geometry : Type} (img : @Image geometry) : Prop :=
  exists t, image_get img "SENSING_TIME" = Some (PString t).

(** Two pixel values that agree: both masked, or both valid and equal as
    rationals. *)
Definition option_Qeq (a b : option Q) : Prop :=
  match a, b with
  | Some x, Some y => (x == y)%Q
  | None, None => True
  | _, _ => False
  end.

(** ** Example scenes

    Scenes without a footprint of their own; the geometry type is [unit]. *)

Definition at_pixel (x y : Z) (p : pixel) : bool := (p.1 =? x) && (p.2 =? y).

(** A scene with the given NIR, red and quality rasters; the other bands
    hold 1000 everywhere. *)
Definition scene (sensing_time : string) (nir red qa : raster) : @Image unit :=
  mkImage [("B1", fun _ => Some 1000%Q); ("B2", fun _ => Some 1000%Q); ("B3", red);
           ("B4", nir); ("B5", fun _ => Some 1000%Q); ("B6", fun _ => Some 1000%Q);
           ("B7", fun _ => Some 1000%Q); ("pixel_qa", qa)]
          (<["SENSING_TIME" := PString sensing_time]> ∅) None.

(** Quality bits all zero, NIR 5000 and red 2000 everywhere. *)
Definition clear_scene : @Image unit :=
  scene "2011-07-04T16:05:13.5678Z" (fun _ => Some 5000%Q) (fun _ => Some 2000%Q)
        (fun _ => Some 0%Q).

(** The same, with the cloud bit (32) set at the pixel [(0, 0)] only. *)
Definition cloudy_scene : @Image unit :=
  scene "2011-07-04T16:05:13.5678Z" (fun _ => Some 5000%Q) (fun _ => Some 2000%Q)
        (fun p => if at_pixel 0 0 p then Some 32%Q else Some 0%Q).

(** The output of a function that is known to succeed. *)
Definition get_ok {A : Type} (default : A) (r : result A) : A :=
  match r with
  | Ok a => a
  | Err _ => default
  end.

(** [clear_scene] after [cloud_mask]: NIR 1/2 and red 1/5 everywhere. *)
Definition preprocessed_clear_scene : @Image unit :=
  get_ok clear_scene (cloud_mask clear_scene).

(** A preprocessed scene of a given year with the given NIR and red
    rasters; the other bands hold 1/10 everywhere. *)
Definition reflectance_scene (year : string) (nir red : raster) : @Image unit :=
  mkImage [("blue", fun _ => Some (1 # 10)); ("green", fun _ => Some (1 # 10)); ("red", red);
           ("NIR", nir); ("SWIR1", fun _ => Some (1 # 10)); ("SWIR2", fun _ => Some (1 # 10))]
          (<["year" := PString year]> ∅) None.

(** NIR -1/10 and red 3/10 everywhere: a negative reflectance, as the
    surface reflectance products hold over dark targets. *)
Definition negative_scene : @Image unit :=
  reflectance_scene "2000" (fun _ => Some (- 1 # 10)) (fun _ => Some (3 # 10)).


(** Two scenes of 2000 whose indices are 3/10 and 7/10, around a scene
    of 2001. *)
Definition example_collection : @ImageCollection unit :=
  [reflectance_scene "2000" (fun _ => Some (13 # 20)) (fun _ => Some (7 # 20));
   reflectance_scene "2001" (fun _ => Some (1 # 2)) (fun _ => Some (1 # 5));
   reflectance_scene "2000" (fun _ => Some (17 # 20)) (fun _ => Some (3 # 20))].

(** ** Example archives

    Regions and footprints on a line: a geometry is a union of intervals
    of pixel columns, and its bounds are the one interval that spans
    them. *)

Definition columns : Type := list (Z * Z).

Definition columns_intersects (a b : columns) : bool :=
  existsb (fun x : Z * Z => existsb (fun y : Z * Z => (x.1 <=? y.2) && (y.1 <=? x.2)) b) a.

Definition columns_contains (g : columns) (p : pixel) : bool :=
  existsb (fun x : Z * Z => (x.1 <=? p.1) && (p.1 <=? x.2)) g.

Definition columns_bounds (g : columns) : columns :=
  match g with
  | [] => []
  | x :: rest => [(fold_left Z.min (map fst rest) x.1, fold_left Z.max (map snd rest) x.2)]
  end.

(** A raw scene with a footprint, an acquisition date (at 16:05:13 UTC)
    and a cloud cover; NIR 5000, red 2000 and clear quality everywhere. *)
Definition raw_scene (g : columns) (y m d : Z) (cover : Q) (sensing_time : string)
    : @Image columns :=
  mkImage (bands clear_scene)
          (<["system:time_start" :=
               PNumber (inject_Z (days_from_civil y m d * millis_per_day + 57913000))]>
             (<["CLOUD_COVER_LAND" := PNumber cover]>
                (<["SENSING_TIME" := PString sensing_time]> ∅)))
          (Some g).

(** The study region: two stretches of columns; its bounds span the gap
    between them. *)
Definition example_region : columns := [(0, 10); (20, 30)].

(** Landsat 5: a qualifying scene, one too cloudy, one from December. *)
Definition LT05_example : @ImageCollection columns :=
  [raw_scene [(0, 40)] 2011 7 4 12 "2011-07-04T16:05:13.5678Z";
   raw_scene [(0, 40)] 2011 7 20 90 "2011-07-20T16:05:13.5678Z";
   raw_scene [(0, 40)] 2011 12 21 5 "2011-12-21T16:05:13.5678Z"].

(** Landsat 7: a qualifying scene of the same day over the same place,
    and one that does not touch the region. *)
Definition LE07_example : @ImageCollection columns :=
  [raw_scene [(0, 40)] 2011 7 4 30 "2011-07-04T16:05:13.5678Z";
   raw_scene [(100, 110)] 2011 7 5 10 "2011-07-05T16:05:13.5678Z"].

(** Surface water at the pixels of column 3; never-cultivated land
    everywhere but column 4. *)
Definition surface_water_example : @Image columns :=
  mkImage [("occurrence", fun _ => Some 50%Q);
           ("max_extent", fun p => if p.1 =? 3 then Some 1%Q else Some 0%Q)] ∅ None.

Definition cdl_example : @Image columns :=
  mkImage [("cultivated_all", fun p => if p.1 =? 4 then Some 0%Q else Some 1%Q)] ∅ None.

(** One qualifying raw scene, of 4 July 2011. *)
Definition example_raw_scene : @Image columns :=
  raw_scene [(0, 40)] 2011 7 4 12 "2011-07-04T16:05:13.5678Z".

(** An archive with one qualifying scene in every year from 1995 to
    2015, each of 4 July. *)
Definition full_archive : @ImageCollection columns :=
  map (fun y : Z =>
         raw_scene [(0, 40)] y 7 4 10 (String.append (format_d y) "-07-04T16:05:13.5678Z"))
      (range 1995 2016).

(** The same scene without its near-infrared band [B4]. *)
Definition example_scene_without_nir : @Image columns :=
  mkImage (List.filter (fun b => negb (String.eqb (fst b) "B4")) (bands example_raw_scene))
          (properties example_raw_scene) (footprint example_raw_scene).

(** Landsat 5 with one more scene, of December and without [B4]: it does
    not qualify. *)
Definition LT05_with_winter_scene : @ImageCollection columns :=
  LT05_example ++
  [mkImage (bands example_scene_without_nir)
           (properties (raw_scene [(0, 40)] 2010 12 24 5 "2010-12-24T16:05:13.5678Z"))
           (Some [(0, 40)])].

(** ** Properties *)

Section Properties.
Context {geometry : Type}.
Implicit Types (img out : @Image geometry) (r qa : raster) (p : pixel).

Lemma find_band_map (f : raster -> raster) name (bs : list (string * raster)) :
  find_band name (map (fun b : string * raster => (b.1, f b.2)) bs)
  = option_map f (find_band name bs).
Proof.
  induction bs as [|[n r] bs IH]; simpl; [reflexivity|].
  destruct (String.eqb n name); [reflexivity|exact IH].
Qed.

Lemma pair_bands_single f (a b : @Image geometry) n rb :
  bands b = [(n, rb)] ->
  pair_bands f a b
  = Ok (mkImage (map (fun x : string * raster => (x.1, f x.2 rb)) (bands a)) ∅ (footprint a)).
Proof.
  intros Hb. unfold pair_bands. rewrite Hb.
  destruct (bands a) as [|[na ra] [|x l]]; reflexivity.
Qed.

Lemma cloud_mask_inv img out :
  cloud_mask img = Ok out ->
  exists qa b1 b2 b3 b4 b5 b7 t,
    find_band "pixel_qa" (bands img) = Some qa /\
    find_band "B1" (bands img) = Some b1 /\
    find_band "B2" (bands img) = Some b2 /\
    find_band "B3" (bands img) = Some b3 /\
    find_band "B4" (bands img) = Some b4 /\
    find_band "B5" (bands img) = Some b5 /\
    find_band "B7" (bands img) = Some b7 /\
    image_get img "SENSING_TIME" = Some (PString t) /\
    out = mkImage [("blue", rescaled qa b1); ("green", rescaled qa b2);
                   ("red", rescaled qa b3); ("NIR", rescaled qa b4);
                   ("SWIR1", rescaled qa b5); ("SWIR2", rescaled qa b7);
                   ("pixel_qa", rescaled qa qa)]
                  (<["year" := PString (substring 0 4 t)]> (<["date" := PString t]> ∅))
                  (footprint img).
Proof.
  unfold cloud_mask, select, select_as. intros H.
  cbn [mapM combine mbind result_bind fst snd] in H.
  destruct (find_band "pixel_qa" (bands img)) as [qa|] eqn:Hqa; [|discriminate H].
  cbn [mapM combine mbind result_bind mret result_ret fst snd] in H.
  unfold image_And in H.
  rewrite (pair_bands_single _ _ _ "pixel_qa"
             (pointwise (fun v => Qbool (Qeq_bool v 0))
                (pointwise (fun v => inject_Z (Z.land (Qfloor v) (2 ^ 5))) qa))) in H
    by reflexivity.
  cbn [mbind result_bind] in H.
  rewrite (pair_bands_single _ _ _ "pixel_qa"
             (pointwise (fun v => Qbool (Qeq_bool v 0))
                (pointwise (fun v => inject_Z (Z.land (Qfloor v) (2 ^ 2))) qa))) in H
    by reflexivity.
  cbn [mbind result_bind] in H.
  unfold updateMask in H.
  rewrite (pair_bands_single _ _ _ "pixel_qa" (code_mask qa)) in H by reflexivity.
  cbn [mbind result_bind bands divide map_bands] in H.
  rewrite !find_band_map in H.
  rewrite !(find_band_map (fun r => mask_raster r (code_mask qa))) in H.
  rewrite Hqa in H.
  destruct (find_band "B1" (bands img)) as [b1|]; [|discriminate H].
  destruct (find_band "B2" (bands img)) as [b2|]; [|discriminate H].
  destruct (find_band "B3" (bands img)) as [b3|]; [|discriminate H].
  destruct (find_band "B4" (bands img)) as [b4|]; [|discriminate H].
  destruct (find_band "B5" (bands img)) as [b5|]; [|discriminate H].
  destruct (find_band "B7" (bands img)) as [b7|]; [|discriminate H].
  cbn [option_map mbind result_bind mret result_ret] in H.
  destruct (image_get img "SENSING_TIME") as [[t|?]|]; try discriminate H.
  injection H as <-.
  exists qa, b1, b2, b3, b4, b5, b7, t. repeat split; reflexivity.
Qed.

Lemma cloud_mask_ok img qa b1 b2 b3 b4 b5 b7 t :
    find_band "pixel_qa" (bands img) = Some qa ->
    find_band "B1" (bands img) = Some b1 ->
    find_band "B2" (bands img) = Some b2 ->
    find_band "B3" (bands img) = Some b3 ->
    find_band "B4" (bands img) = Some b4 ->
    find_band "B5" (bands img) = Some b5 ->
    find_band "B7" (bands img) = Some b7 ->
    image_get img "SENSING_TIME" = Some (PString t) ->
    cloud_mask img =
     Ok (mkImage [("blue", rescaled qa b1); ("green", rescaled qa b2);
                   ("red", rescaled qa b3); ("NIR", rescaled qa b4);
                   ("SWIR1", rescaled qa b5); ("SWIR2", rescaled qa b7);
                   ("pixel_qa", rescaled qa qa)]
                  (<["year" := PString (substring 0 4 t)]> (<["date" := PString t]> ∅))
                  (footprint img)).
Proof.
  intros Hqa H1 H2 H3 H4 H5 H7 Ht.
  unfold cloud_mask, select, select_as.
  cbn [mapM combine mbind result_bind fst snd].
  rewrite Hqa.
  cbn [mapM combine mbind result_bind mret result_ret fst snd].
  unfold image_And.
  rewrite (pair_bands_single _ _ _ "pixel_qa"
             (pointwise (fun v => Qbool (Qeq_bool v 0))
                (pointwise (fun v => inject_Z (Z.land (Qfloor v) (2 ^ 5))) qa)))
    by reflexivity.
  cbn [mbind result_bind].
  rewrite (pair_bands_single _ _ _ "pixel_qa"
             (pointwise (fun v => Qbool (Qeq_bool v 0))
                (pointwise (fun v => inject_Z (Z.land (Qfloor v) (2 ^ 2))) qa)))
    by reflexivity.
  cbn [mbind result_bind].
  unfold updateMask.
  rewrite (pair_bands_single _ _ _ "pixel_qa" (code_mask qa)) by reflexivity.
  cbn [mbind result_bind bands divide map_bands].
  rewrite !find_band_map.
  rewrite !(find_band_map (fun r => mask_raster r (code_mask qa))).
  rewrite Hqa, H1, H2, H3, H4, H5, H7, Ht.
  reflexivity.
Qed.


Lemma is_nonzero_Qbool b : is_nonzero (Qbool b) = b.
Proof. destruct b; reflexivity. Qed.

Lemma Qeq_bool_inject_Z z : Qeq_bool (inject_Z z) 0 = (z =? 0).
Proof.
  destruct (z =? 0) eqn:E.
  - apply Z.eqb_eq in E. subst z. reflexivity.
  - destruct (Qeq_bool (inject_Z z) 0) eqn:E'; [|reflexivity].
    apply Qeq_bool_iff in E'. unfold Qeq in E'. simpl in E'.
    apply Z.eqb_neq in E. lia.
Qed.

Lemma land_pow2_eqb z k : 0 <= k -> (Z.land z (2 ^ k) =? 0) = negb (Z.testbit z k).
Proof.
  intros Hk. destruct (Z.testbit z k) eqn:E; simpl.
  - apply Z.eqb_neq. intros H0.
    assert (Z.testbit (Z.land z (2 ^ k)) k = true) as Hb
      by (rewrite Z.land_spec, E, Z.pow2_bits_true by exact Hk; reflexivity).
    rewrite H0, Z.bits_0 in Hb. discriminate.
  - apply Z.eqb_eq. apply Z.bits_inj'. intros n Hn.
    rewrite Z.land_spec, Z.bits_0, Z.pow2_bits_eqb by exact Hk.
    destruct (Z.eqb_spec k n) as [->|]; [rewrite E|]; apply andb_false_r || reflexivity.
Qed.

Lemma omap_ext_fun {A B} (f g : A -> option B) (l : list A) :
  (forall x, f x = g x) -> omap f l = omap g l.
Proof.
  intros Hfg. induction l as [|x l IH]; simpl; [reflexivity|].
  rewrite Hfg. destruct (g x); [f_equal|]; exact IH.
Qed.

Lemma In_omap {A B} (f : A -> option B) (l : list A) (y : B) :
  In y (omap f l) <-> exists x, In x l /\ f x = Some y.
Proof.
  rewrite <- list_elem_of_In, list_elem_of_omap.
  split; intros [x [Hx Hf]]; exists x; split; try exact Hf; apply list_elem_of_In; exact Hx.
Qed.

Lemma code_mask_eq qa p :
  code_mask qa p =
  match qa p with
  | None => None
  | Some _ => Some (Qbool (existsb is_nonzero (neighborhood (square 1) (provisional qa) p)))
  end.
Proof.
  assert (forall p', pointwise2 (fun x y => Qbool (is_nonzero x && is_nonzero y))
            (pointwise2 (fun x y => Qbool (is_nonzero x && is_nonzero y))
               (pointwise (fun v => Qbool (Qeq_bool v 0))
                  (pointwise (fun v => inject_Z (Z.land (Qfloor v) (2 ^ 3))) qa))
               (pointwise (fun v => Qbool (Qeq_bool v 0))
                  (pointwise (fun v => inject_Z (Z.land (Qfloor v) (2 ^ 5))) qa)))
            (pointwise (fun v => Qbool (Qeq_bool v 0))
               (pointwise (fun v => inject_Z (Z.land (Qfloor v) (2 ^ 2))) qa)) p'
          = provisional qa p') as Hm.
  { intros p'. unfold provisional, pointwise2, pointwise.
    destruct (qa p') as [q|]; cbn [option_map]; [|reflexivity].
    unfold contaminated.
    rewrite !is_nonzero_Qbool, !Qeq_bool_inject_Z.
    rewrite (land_pow2_eqb _ 3), (land_pow2_eqb _ 5), (land_pow2_eqb _ 2) by lia.
    destruct (Z.testbit (Qfloor q) 5), (Z.testbit (Qfloor q) 3), (Z.testbit (Qfloor q) 2);
      reflexivity. }
  unfold code_mask. cbv zeta. rewrite Hm.
  unfold provisional at 1, pointwise at 1.
  destruct (qa p); cbn [option_map]; [|reflexivity].
  unfold Reducer_anyNonZero, neighborhood. do 3 f_equal.
  apply omap_ext_fun. intros o. apply Hm.
Qed.

Lemma mask_raster_code_mask r qa p :
  mask_raster r (code_mask qa) p = if kept qa p then r p else None.
Proof.
  unfold mask_raster, kept. rewrite code_mask_eq.
  destruct (qa p); [|reflexivity].
  rewrite is_nonzero_Qbool. reflexivity.
Qed.

Lemma In_square_1 (o : Z * Z) :
  In o (square 1) <-> (-1 <= o.1 <= 1) /\ (-1 <= o.2 <= 1).
Proof.
  destruct o as [a b]. cbn [fst snd]. split.
  - intros H. vm_compute in H.
    repeat (destruct H as [H|H]; [injection H as <- <-; lia|]). destruct H.
  - intros [Ha Hb].
    assert (a = -1 \/ a = 0 \/ a = 1) as Ha' by lia.
    assert (b = -1 \/ b = 0 \/ b = 1) as Hb' by lia.
    destruct Ha' as [->|[->| ->]], Hb' as [->|[->| ->]]; vm_compute; tauto.
Qed.

Lemma kept_iff qa p :
  kept qa p = true <->
  is_Some (qa p) /\
  exists dx dy q, -1 <= dx <= 1 /\ -1 <= dy <= 1 /\
                  qa (p.1 + dx, p.2 + dy) = Some q /\ contaminated q = false.
Proof.
  unfold kept. split.
  - destruct (qa p) as [q0|] eqn:Hp; [|discriminate].
    intros H. split; [eauto|].
    apply existsb_exists in H as [v [Hin Hv]].
    apply In_omap in Hin as [[dx dy] [Ho Hq]].
    apply In_square_1 in Ho as [Hx Hy]. cbn [fst snd] in *.
    unfold provisional, pointwise in Hq.
    destruct (qa (p.1 + dx, p.2 + dy)) as [q|] eqn:E; [|discriminate].
    injection Hq as <-. rewrite is_nonzero_Qbool in Hv.
    exists dx, dy, q. repeat split; try lia; try exact E.
    destruct (contaminated q); [discriminate|reflexivity].
  - intros [[q0 Hp] [dx [dy [q [Hx [Hy [E Hc]]]]]]]. rewrite Hp.
    apply existsb_exists. exists (Qbool (negb (contaminated q))). split.
    + apply In_omap. exists (dx, dy). split; [apply In_square_1; cbn; lia|].
      unfold provisional, pointwise. cbn [fst snd]. rewrite E. reflexivity.
    + rewrite is_nonzero_Qbool, Hc. reflexivity.
Qed.

(** Every band of [cloud_mask]'s output, pixel by pixel: the raw value
    over 10000 where the mask keeps the pixel, masked elsewhere. *)
Lemma cloud_mask_band img out raw canon p :
  cloud_mask img = Ok out ->
  In (raw, canon) band_renames ->
  band_value out canon p =
  if kept (band_value img "pixel_qa") p
  then option_map (fun v => v / 10000)%Q (band_value img raw p)
  else None.
Proof.
  intros H Hin.
  destruct (cloud_mask_inv img out H)
    as (qa & b1 & b2 & b3 & b4 & b5 & b7 & t & Hqa & H1 & H2 & H3 & H4 & H5 & H7 & _ & ->).
  assert (kept (band_value img "pixel_qa") p = kept qa p) as ->
    by (unfold band_value; rewrite Hqa; reflexivity).
  unfold band_renames in Hin. cbn [In] in Hin.
  repeat (destruct Hin as [Hin|Hin];
          [injection Hin as <- <-; unfold band_value; cbn [find_band bands];
           rewrite ?Hqa, ?H1, ?H2, ?H3, ?H4, ?H5, ?H7;
           cbn; unfold rescaled, pointwise; rewrite mask_raster_code_mask;
           destruct (kept qa p); reflexivity|]).
  destruct Hin.
Qed.

Lemma In_reflectance_renames raw canon :
  In (raw, canon) reflectance_bands -> In (raw, canon) band_renames.
Proof. unfold reflectance_bands, band_renames. cbn [In]. tauto. Qed.

(** C5: in [cloud_mask]'s output every reflectance band holds, at every
    pixel that is still valid, the raw value of the band it was renamed
    from divided by 10000; raw 5000 and 2000 become 1/2 and 1/5. *)
Theorem cloud_mask_rescales img out raw canon p v :
  cloud_mask img = Ok out ->
  In (raw, canon) reflectance_bands ->
  band_value out canon p = Some v ->
  exists rv : Q, band_value img raw p = Some rv /\ v == rv / 10000 /\
            (rv == 5000 -> v == 1 # 2) /\ (rv == 2000 -> v == 1 # 5).
Proof.
  intros H Hin Hv.
  rewrite (cloud_mask_band img out raw canon p H (In_reflectance_renames _ _ Hin)) in Hv.
  destruct (kept (band_value img "pixel_qa") p); [|discriminate Hv].
  destruct (band_value img raw p) as [rv|]; [|discriminate Hv].
  injection Hv as <-. exists rv.
  repeat split; try reflexivity; intros ->; reflexivity.
Qed.

(** A pixel of [cloud_mask]'s output is valid exactly when the raw band
    and the quality value are valid there and some pixel of the 3x3
    window around it (itself included) is not contaminated. *)
Theorem cloud_mask_valid_iff img out raw canon p :
  cloud_mask img = Ok out ->
  In (raw, canon) band_renames ->
  is_Some (band_value out canon p) <->
  is_Some (band_value img raw p) /\ is_Some (band_value img "pixel_qa" p) /\
  exists dx dy q, -1 <= dx <= 1 /\ -1 <= dy <= 1 /\
                  band_value img "pixel_qa" (p.1 + dx, p.2 + dy) = Some q /\
                  contaminated q = false.
Proof.
  intros H Hin. rewrite (cloud_mask_band img out raw canon p H Hin).
  pose proof (kept_iff (band_value img "pixel_qa") p) as Hk.
  destruct (kept (band_value img "pixel_qa") p).
  - destruct Hk as [Hk _]. specialize (Hk eq_refl).
    destruct (band_value img raw p) as [rv|]; cbn [option_map]; split.
    + intros _. split; [eauto|exact Hk].
    + intros _. eauto.
    + intros [? ?]. discriminate.
    + intros [[? ?] _]. discriminate.
  - split.
    + intros [? ?]. discriminate.
    + intros [_ Hc]. apply Hk in Hc. discriminate.
Qed.

(** *** The index calculator *)

Lemma ndvi_ok img (nir red : raster) :
  find_band "NIR" (bands img) = Some nir ->
  find_band "red" (bands img) = Some red ->
  ndvi img =
  Ok (mkImage [("nd", fun p => match nir p, red p with
                               | Some a, Some b => normalized_difference a b
                               | _, _ => None
                               end)]
              (<["variable" := PString "NDVI"]>
                 (match image_get img "year" with
                  | Some y => <["year" := y]> ∅
                  | None => delete "year" ∅
                  end))
              (footprint img)).
Proof.
  intros Hn Hr. unfold ndvi, normalizedDifference. rewrite Hn, Hr. reflexivity.
Qed.

Lemma ndvi_inv img out :
  ndvi img = Ok out ->
  exists nir red : raster,
    find_band "NIR" (bands img) = Some nir /\ find_band "red" (bands img) = Some red.
Proof.
  unfold ndvi, normalizedDifference. intros H.
  destruct (find_band "NIR" (bands img)) as [nir|]; [|discriminate H].
  destruct (find_band "red" (bands img)) as [red|]; [|discriminate H].
  eauto.
Qed.

(** The index band of [ndvi]'s output, pixel by pixel. *)
Lemma ndvi_band img out p :
  ndvi img = Ok out ->
  band_value out "nd" p =
  match band_value img "NIR" p, band_value img "red" p with
  | Some a, Some b => normalized_difference a b
  | _, _ => None
  end.
Proof.
  intros H. destruct (ndvi_inv img out H) as (nir & red & Hn & Hr).
  rewrite (ndvi_ok img nir red Hn Hr) in H. injection H as <-.
  unfold band_value. rewrite Hn, Hr. reflexivity.
Qed.

Lemma ndvi_bands img out : ndvi img = Ok out -> bandNames out = ["nd"].
Proof.
  intros H. destruct (ndvi_inv img out H) as (nir & red & Hn & Hr).
  rewrite (ndvi_ok img nir red Hn Hr) in H. injection H as <-. reflexivity.
Qed.

Lemma ndvi_year img out : ndvi img = Ok out -> image_get out "year" = image_get img "year".
Proof.
  intros H. destruct (ndvi_inv img out H) as (nir & red & Hn & Hr).
  rewrite (ndvi_ok img nir red Hn Hr) in H. injection H as <-.
  unfold image_get at 1. cbn [properties].
  rewrite lookup_insert_ne by discriminate.
  destruct (image_get img "year").
  - apply lookup_insert_eq.
  - apply lookup_delete_eq.
Qed.

Local Open Scope Q_scope.

Lemma normalized_difference_defined (a b : Q) :
  0 <= a -> 0 <= b -> ~ a + b == 0 ->
  normalized_difference a b = Some ((a - b) / (a + b)).
Proof.
  intros Ha Hb Hs. unfold normalized_difference.
  apply Qle_bool_iff in Ha, Hb. rewrite Ha, Hb.
  destruct (Qeq_bool (a + b) 0) eqn:E; [|reflexivity].
  apply Qeq_bool_iff in E. contradiction.
Qed.

Lemma normalized_difference_zero_sum (a b : Q) :
  a + b == 0 -> normalized_difference a b = None.
Proof.
  intros Hs. unfold normalized_difference.
  apply Qeq_bool_iff in Hs. rewrite Hs, andb_false_r. reflexivity.
Qed.

Lemma normalized_difference_negative (a b : Q) :
  a < 0 \/ b < 0 -> normalized_difference a b = None.
Proof.
  intros H. unfold normalized_difference.
  destruct (Qle_bool 0 a) eqn:Ea; [|reflexivity].
  destruct (Qle_bool 0 b) eqn:Eb; [|reflexivity].
  apply Qle_bool_iff in Ea, Eb. destruct H as [H|H]; lra.
Qed.



(** C2, amended: on an image with NIR and red bands [ndvi] does not fail;
    at a pixel where both are valid it gives [(NIR - red) / (NIR + red)]
    when neither value is negative and the sum is not zero, and a masked
    pixel when the sum is zero or a value is negative. *)
Theorem ndvi_value img :
  is_Some (find_band "NIR" (bands img)) ->
  is_Some (find_band "red" (bands img)) ->
  exists out,
    ndvi img = Ok out /\
    forall p (n r : Q),
      band_value img "NIR" p = Some n ->
      band_value img "red" p = Some r ->
      (0 <= n -> 0 <= r -> ~ n + r == 0 ->
       band_value out "nd" p = Some ((n - r) / (n + r))) /\
      (n + r == 0 -> band_value out "nd" p = None) /\
      (n < 0 \/ r < 0 -> band_value out "nd" p = None).
Proof.
  intros [nir Hn] [red Hr].
  eexists. split; [apply (ndvi_ok img nir red Hn Hr)|].
  intros p n r Hpn Hpr.
  rewrite (ndvi_band img _ p (ndvi_ok img nir red Hn Hr)), Hpn, Hpr.
  split; [|split].
  - apply normalized_difference_defined.
  - apply normalized_difference_zero_sum.
  - apply normalized_difference_negative.
Qed.


Local Close Scope Q_scope.

(** *** Mapping a fallible function over a collection *)

Lemma mapM_cons {A B} (f : A -> result B) (x : A) (l : list A) :
  mapM f (x :: l) =
  match f x with
  | Ok y => match mapM f l with
            | Ok ys => Ok (y :: ys)
            | Err msg => Err msg
            end
  | Err msg => Err msg
  end.
Proof. reflexivity. Qed.

Lemma mapM_Ok_Forall2 {A B} (f : A -> result B) (l : list A) (l' : list B) :
  mapM f l = Ok l' <-> Forall2 (fun x y => f x = Ok y) l l'.
Proof.
  revert l'. induction l as [|x l IH]; intros l'.
  - split.
    + intros H. injection H as <-. constructor.
    + intros H. inversion H. reflexivity.
  - rewrite mapM_cons. split.
    + intros H. destruct (f x) as [y|] eqn:Ex; [|discriminate H].
      destruct (mapM f l) as [ys|] eqn:El; [|discriminate H].
      injection H as <-. constructor; [exact Ex|]. apply IH. reflexivity.
    + intros H. inversion H as [|? y ? ys Hxy Hl]; subst.
      rewrite Hxy. apply IH in Hl. rewrite Hl. reflexivity.
Qed.

Lemma mapM_total {A B} (f : A -> result B) (l : list A) :
  (forall x, In x l -> exists y, f x = Ok y) -> exists l', mapM f l = Ok l'.
Proof.
  induction l as [|x l IH]; intros H.
  - exists []. reflexivity.
  - destruct (H x (or_introl eq_refl)) as [y Hy].
    destruct IH as [ys Hys]; [intros z Hz; apply H; right; exact Hz|].
    exists (y :: ys). rewrite mapM_cons, Hy, Hys. reflexivity.
Qed.

Lemma Forall2_omap {A B C} (f : A -> result B) (g : B -> option C) (h : A -> option C)
    (l : list A) (l' : list B) :
  (forall x y, f x = Ok y -> g y = h x) ->
  Forall2 (fun x y => f x = Ok y) l l' ->
  omap g l' = omap h l.
Proof.
  intros Hgh H. induction H as [|x y l l' Hxy _ IH]; [reflexivity|].
  cbn. rewrite (Hgh x y Hxy). destruct (h x); [f_equal|]; exact IH.
Qed.

(** *** Year labels *)

Lemma metadata_passes_year year img :
  metadata_passes "year" equals (PString year) img = has_year year img.
Proof.
  unfold metadata_passes, has_year.
  destruct (image_get img "year") as [[s|q]|]; reflexivity.
Qed.

Lemma filterMetadata_year year (c : @ImageCollection geometry) :
  filterMetadata "year" equals (PString year) c = List.filter (has_year year) c.
Proof.
  unfold filterMetadata. induction c as [|img c IH]; [reflexivity|].
  cbn [List.filter]. rewrite metadata_passes_year, IH. reflexivity.
Qed.

Lemma has_year_iff year img :
  has_year year img = true <-> image_get img "year" = Some (PString year).
Proof.
  unfold has_year. destruct (image_get img "year") as [[s|q]|]; split; try discriminate.
  - intros H. apply String.eqb_eq in H. subst s. reflexivity.
  - intros H. injection H as ->. apply String.eqb_refl.
Qed.

Lemma In_filter_has_year year (c : @ImageCollection geometry) img :
  In img (List.filter (has_year year) c) <->
  In img c /\ image_get img "year" = Some (PString year).
Proof. rewrite filter_In, has_year_iff. reflexivity. Qed.

Lemma image_get_set key v img : image_get (image_set key (Some v) img) key = Some v.
Proof. unfold image_get, image_set. cbn [properties]. apply lookup_insert_eq. Qed.

Lemma band_value_set key v img band p :
  band_value (image_set key v img) band p = band_value img band p.
Proof. reflexivity. Qed.

(** *** Reducing a collection *)

Lemma find_band_named (F : string -> raster) (band : string) (names : list string) :
  In band names ->
  find_band band (map (fun n : string => (n, F n)) names) = Some (F band).
Proof.
  induction names as [|n names IH]; intros Hin; [destruct Hin|].
  cbn [map find_band]. destruct (String.eqb_spec n band) as [->|Hne]; [reflexivity|].
  destruct Hin as [Heq|Hin]; [contradiction|]. apply IH, Hin.
Qed.

Lemma band_value_reduce_empty (red : reducer) band p :
  band_value (reduce_images (geometry := geometry) red []) band p = None.
Proof. reflexivity. Qed.

Lemma band_value_reduce (red : reducer) (first : @Image geometry) rest band p :
  In band (bandNames first) ->
  band_value (reduce_images red (first :: rest)) band p =
  red (omap (fun img : Image => band_value img band p) (first :: rest)).
Proof.
  intros Hin. unfold band_value at 1, reduce_images. cbn [bands].
  rewrite (find_band_named
             (fun n p => red (omap (fun img : Image => band_value img n p) (first :: rest)))
             band (bandNames first) Hin).
  reflexivity.
Qed.

(** *** The reducers *)

Lemma insert_sorted_perm (x : Q) (l : list Q) : Permutation (x :: l) (insert_sorted x l).
Proof.
  induction l as [|y l IH]; cbn [insert_sorted]; [reflexivity|].
  destruct (Qle_bool x y); [reflexivity|].
  rewrite perm_swap. apply perm_skip, IH.
Qed.

Lemma insert_sorted_sorted (x : Q) (l : list Q) :
  StronglySorted Qle l -> StronglySorted Qle (insert_sorted x l).
Proof.
  induction 1 as [|y l Hl IH Hy]; cbn [insert_sorted].
  - repeat constructor.
  - destruct (Qle_bool x y) eqn:E.
    + apply Qle_bool_iff in E. constructor; [constructor; assumption|].
      constructor; [exact E|].
      eapply List.Forall_impl; [|exact Hy]. intros z Hz. cbn beta in Hz.
      eapply Qle_trans; eassumption.
    + constructor; [exact IH|].
      apply (Permutation_Forall (insert_sorted_perm x l)).
      constructor; [|exact Hy].
      apply Qlt_le_weak, Qnot_le_lt. intros Hle.
      apply Qle_bool_iff in Hle. congruence.
Qed.

Lemma sort_values_perm (vs : list Q) : Permutation vs (sort_values vs).
Proof.
  induction vs as [|v vs IH]; cbn [sort_values fold_right]; [reflexivity|].
  etransitivity; [apply perm_skip, IH|]. apply insert_sorted_perm.
Qed.

Lemma sort_values_sorted (vs : list Q) : StronglySorted Qle (sort_values vs).
Proof.
  induction vs as [|v vs IH]; cbn [sort_values fold_right]; [constructor|].
  apply insert_sorted_sorted, IH.
Qed.

Lemma sort_values_length (vs : list Q) : length (sort_values vs) = length vs.
Proof. symmetry. apply Permutation_length, sort_values_perm. Qed.

(** The median reducer gives the middle-ranked input of an odd number of
    inputs, the mean of the two middle-ranked ones of an even number, and
    nothing without inputs. *)
Lemma Reducer_median_ranked (vs : list Q) :
  exists ranked : list Q,
    Permutation vs ranked /\ StronglySorted Qle ranked /\
    (Nat.odd (length vs) = true ->
     exists m, ranked !! Nat.div (length vs) 2 = Some m /\
               Reducer_median vs = Some m) /\
    (Nat.even (length vs) = true -> (0 < length vs)%nat ->
     exists a b, ranked !! (Nat.div (length vs) 2 - 1)%nat = Some a /\
                 ranked !! Nat.div (length vs) 2 = Some b /\
                 Reducer_median vs = Some ((a + b) / 2)%Q) /\
    (length vs = 0%nat -> Reducer_median vs = None).
Proof.
  exists (sort_values vs).
  split; [apply sort_values_perm|]. split; [apply sort_values_sorted|].
  unfold Reducer_median. cbv zeta. rewrite sort_values_length.
  set (N := length vs).
  assert (length (sort_values vs) = N) as HN by apply sort_values_length.
  split; [|split].
  - intros Hodd. rewrite Hodd.
    destruct (sort_values vs !! Nat.div N 2) as [m|] eqn:E; [eauto|].
    apply lookup_ge_None in E. rewrite HN in E.
    destruct N as [|N']; [discriminate Hodd|].
    pose proof (Nat.div_lt (S N') 2). lia.
  - intros Heven Hpos. rewrite <- Nat.negb_even, Heven. cbn [negb].
    assert (Nat.div N 2 < N)%nat as Hlt by (apply Nat.div_lt; lia).
    destruct (sort_values vs !! (Nat.div N 2 - 1)%nat) as [a|] eqn:Ea;
      [|apply lookup_ge_None in Ea; lia].
    destruct (sort_values vs !! Nat.div N 2) as [b|] eqn:Eb;
      [|apply lookup_ge_None in Eb; lia].
    eauto.
  - intros H0. rewrite H0 in HN |- *.
    destruct (sort_values vs) as [|? ?]; [reflexivity|discriminate HN].
Qed.

Lemma fold_left_Qmax (l : list Q) (v : Q) :
  (fold_left Qmax_bool l v = v \/ In (fold_left Qmax_bool l v) l) /\
  (v <= fold_left Qmax_bool l v)%Q /\
  (forall x, In x l -> (x <= fold_left Qmax_bool l v)%Q).
Proof.
  revert v. induction l as [|y l IH]; intros v; cbn [fold_left].
  - split; [left; reflexivity|]. split; [apply Qle_refl|]. intros x [].
  - destruct (IH (Qmax_bool v y)) as (Hin & Hge & Hall).
    assert ((v <= Qmax_bool v y)%Q /\ (y <= Qmax_bool v y)%Q /\
            (Qmax_bool v y = v \/ Qmax_bool v y = y)) as (Hv & Hy & Hor).
    { unfold Qmax_bool. destruct (Qle_bool v y) eqn:E.
      - apply Qle_bool_iff in E. repeat split; [exact E|apply Qle_refl|right; reflexivity].
      - repeat split; [apply Qle_refl| |left; reflexivity].
        apply Qlt_le_weak, Qnot_le_lt. intros Hle.
        apply Qle_bool_iff in Hle. congruence. }
    split; [|split].
    + destruct Hin as [Heq|Hin]; [|right; right; exact Hin].
      rewrite Heq. destruct Hor as [->| ->]; [left; reflexivity|right; left; reflexivity].
    + eapply Qle_trans; eassumption.
    + intros x [<-|Hx]; [eapply Qle_trans; eassumption|apply Hall, Hx].
Qed.

(** The maximum reducer gives an input that no input exceeds, and nothing
    without inputs. *)
Lemma Reducer_max_spec (vs : list Q) :
  match Reducer_max vs with
  | Some m => In m vs /\ forall v, In v vs -> (v <= m)%Q
  | None => vs = []
  end.
Proof.
  destruct vs as [|v vs]; cbn [Reducer_max]; [reflexivity|].
  destruct (fold_left_Qmax vs v) as (Hin & Hge & Hall). split.
  - destruct Hin as [->|Hin]; [left; reflexivity|right; exact Hin].
  - intros x [<-|Hx]; [exact Hge|apply Hall, Hx].
Qed.

(** *** The annual compositors *)

Lemma filter_has_year_nil year (c : @ImageCollection geometry) :
  (forall img, In img c -> image_get img "year" <> Some (PString year)) ->
  List.filter (has_year year) c = [].
Proof.
  intros H. induction c as [|img c IH]; [reflexivity|].
  cbn [List.filter]. destruct (has_year year img) eqn:E.
  - apply has_year_iff in E. exfalso. apply (H img (or_introl eq_refl) E).
  - apply IH. intros img' Hin. apply H. right. exact Hin.
Qed.

(** C3: [annual_composite_median] reduces exactly the scenes whose year
    label is the year asked for, tags the result with that year, and
    gives at each pixel of each band the median of the valid values
    there: the middle-ranked one of an odd number, the mean of the two
    middle-ranked ones of an even number, a masked pixel without any. *)
Theorem annual_composite_median_spec (collection : @ImageCollection geometry)
    (year : string) :
  let scenes := List.filter (has_year year) collection in
  (forall img, In img scenes <->
               In img collection /\ image_get img "year" = Some (PString year)) /\
  image_get (annual_composite_median collection year) "year" = Some (PString year) /\
  forall first band p,
    head scenes = Some first ->
    In band (bandNames first) ->
    let vals := omap (fun img : Image => band_value img band p) scenes in
    let composite := band_value (annual_composite_median collection year) band p in
    exists ranked : list Q,
      Permutation vals ranked /\ StronglySorted Qle ranked /\
      (Nat.odd (length vals) = true ->
       exists m, ranked !! Nat.div (length vals) 2 = Some m /\
                 composite = Some m) /\
      (Nat.even (length vals) = true -> (0 < length vals)%nat ->
       exists a b, ranked !! (Nat.div (length vals) 2 - 1)%nat = Some a /\
                   ranked !! Nat.div (length vals) 2 = Some b /\
                   composite = Some ((a + b) / 2)%Q) /\
      (length vals = 0%nat -> composite = None).
Proof.
  intros scenes. split; [|split].
  - intros img. apply In_filter_has_year.
  - apply image_get_set.
  - intros first band p Hfirst Hband vals composite.
    subst composite. unfold annual_composite_median.
    rewrite band_value_set, filterMetadata_year. fold scenes.
    destruct scenes as [|first' rest] eqn:Hs; [discriminate Hfirst|].
    injection Hfirst as ->.
    unfold median. rewrite (band_value_reduce _ first rest band p Hband).
    apply Reducer_median_ranked.
Qed.

(** When the scenes of the year all have NIR and red bands the
    maximum-index compositor succeeds: it reduces their indices. *)
Lemma maximum_ndvi_composite (collection : @ImageCollection geometry) (year : string) :
  (forall img, In img collection -> has_year year img = true ->
               is_Some (find_band "NIR" (bands img)) /\
               is_Some (find_band "red" (bands img))) ->
  exists ndvis,
    Forall2 (fun img out => ndvi img = Ok out)
            (List.filter (has_year year) collection) ndvis /\
    annual_composite_maximum_ndvi collection year
    = Ok (image_set "year" (Some (PString year)) (collection_max ndvis)).
Proof.
  intros Hbands.
  destruct (mapM_total ndvi (List.filter (has_year year) collection)) as [ndvis Hmap].
  { intros img Hin. apply filter_In in Hin as [Hin Hyear].
    destruct (Hbands img Hin Hyear) as [[nir Hn] [red Hr]].
    eexists. apply (ndvi_ok img nir red Hn Hr). }
  exists ndvis. split; [apply mapM_Ok_Forall2, Hmap|].
  unfold annual_composite_maximum_ndvi. rewrite filterMetadata_year, Hmap. reflexivity.
Qed.

(** C4: when the scenes of the year all have NIR and red bands,
    [annual_composite_maximum_ndvi] succeeds, tags the result with the
    year, and gives at each pixel the largest of the indices [ndvi] gives
    for the scenes whose year label is that year, scenes without a valid
    index there left out; a masked pixel when no scene has one.  Indices
    3/10 and 7/10 give 7/10. *)
Theorem annual_composite_maximum_ndvi_spec (collection : @ImageCollection geometry)
    (year : string) :
  (forall img, In img collection -> has_year year img = true ->
               is_Some (find_band "NIR" (bands img)) /\
               is_Some (find_band "red" (bands img))) ->
  exists comp,
    annual_composite_maximum_ndvi collection year = Ok comp /\
    image_get comp "year" = Some (PString year) /\
    forall p,
      let indices := omap (fun img : Image => index_of img p)
                          (List.filter (has_year year) collection) in
      match band_value comp "nd" p with
      | Some m => In m indices /\ forall v, In v indices -> (v <= m)%Q
      | None => indices = []
      end /\
      (forall a b : Q, indices = [a; b] -> (a == 3 # 10)%Q -> (b == 7 # 10)%Q ->
                       exists m, band_value comp "nd" p = Some m /\ (m == 7 # 10)%Q).
Proof.
  intros Hbands.
  destruct (maximum_ndvi_composite collection year Hbands) as (ndvis & Hmap & Hok).
  set (scenes := List.filter (has_year year) collection) in *.
  exists (image_set "year" (Some (PString year)) (collection_max ndvis)).
  split; [exact Hok|]. split.
  - apply image_get_set.
  - intros p indices. rewrite band_value_set.
    assert (omap (fun out : Image => band_value out "nd" p) ndvis = indices) as Hidx.
    { apply (Forall2_omap ndvi _ (fun img : Image => index_of img p) scenes ndvis);
        [|exact Hmap].
      intros img out Hout. unfold index_of. rewrite Hout. reflexivity. }
    assert (band_value (collection_max ndvis) "nd" p = Reducer_max indices) as ->.
    { destruct Hmap as [|img out scenes' ndvis' Hout Hrest].
      - rewrite <- Hidx. reflexivity.
      - rewrite <- Hidx. unfold collection_max. apply band_value_reduce.
        rewrite (ndvi_bands img out Hout). left. reflexivity. }
    pose proof (Reducer_max_spec indices) as Hmax.
    split; [exact Hmax|].
    intros a b Hab Ha Hb. rewrite Hab in Hmax |- *.
    destruct (Reducer_max [a; b]) as [m|]; [|discriminate Hmax].
    exists m. split; [reflexivity|].
    destruct Hmax as [[<-|[<-|[]]] Hall].
    + specialize (Hall b (or_intror (or_introl eq_refl))).
      rewrite Ha, Hb in Hall. exfalso. revert Hall. apply Qlt_not_le. reflexivity.
    + exact Hb.
Qed.

(** C8: for a year that no scene of the collection is labelled with, both
    compositors return an image (without error) in which every pixel of
    every band is masked. *)
Theorem empty_year_composites (collection : @ImageCollection geometry) (year : string) :
  (forall img, In img collection -> image_get img "year" <> Some (PString year)) ->
  (forall band p, band_value (annual_composite_median collection year) band p = None) /\
  exists comp,
    annual_composite_maximum_ndvi collection year = Ok comp /\
    forall band p, band_value comp band p = None.
Proof.
  intros Hnone. pose proof (filter_has_year_nil year collection Hnone) as Hnil.
  split.
  - intros band p. unfold annual_composite_median.
    rewrite filterMetadata_year, Hnil. reflexivity.
  - unfold annual_composite_maximum_ndvi. rewrite filterMetadata_year, Hnil.
    eexists. split; [reflexivity|]. intros band p. reflexivity.
Qed.

(** *** The calendar in the window of the notebook

    On every day from 1995-01-01 to 2015-12-31 the year computed from the
    day number lies in 1995..2015 and the day lies within that year, so
    the day of the year is the day's rank in its civil year. *)

Lemma calendar_in_window (d : Z) :
  days_from_civil 1995 1 1 <= d <= days_from_civil 2015 12 31 ->
  1995 <= year_of_days d <= 2015 /\
  days_from_civil (year_of_days d) 1 1 <= d < days_from_civil (year_of_days d + 1) 1 1.
Proof.
  intros Hd.
  assert (forallb (fun d =>
            (1995 <=? year_of_days d) && (year_of_days d <=? 2015)
            && (days_from_civil (year_of_days d) 1 1 <=? d)
            && (d <? days_from_civil (year_of_days d + 1) 1 1))
            (range (days_from_civil 1995 1 1) (days_from_civil 2015 12 31 + 1)) = true)
    as Hall by (vm_compute; reflexivity).
  rewrite forallb_forall in Hall.
  specialize (Hall d). rewrite !andb_true_iff, !Z.leb_le, Z.ltb_lt in Hall.
  assert (In d (range (days_from_civil 1995 1 1) (days_from_civil 2015 12 31 + 1))) as Hin.
  { unfold range. apply in_map_iff.
    exists (Z.to_nat (d - days_from_civil 1995 1 1)). split; [lia|].
    apply in_seq. lia. }
  destruct (Hall Hin) as [[Hy Hlo] Hhi]. repeat split; tauto.
Qed.

Example day_of_year_2011_07_04 :
  day_of_year (inject_Z (days_from_civil 2011 7 4 * millis_per_day + 57913000)) = 185.
Proof. reflexivity. Qed.

Example day_of_year_2012_12_31 :
  day_of_year (inject_Z (days_from_civil 2012 12 31 * millis_per_day)) = 366.
Proof. reflexivity. Qed.

(** *** The collection assembler *)

Section Assembler.

Variable intersects : geometry -> geometry -> bool.

Lemma Qle_bool_inject_floor (z : Z) (t : Q) :
  Qle_bool (inject_Z z) t = (z <=? Qfloor t).
Proof.
  destruct (Z.leb_spec z (Qfloor t)) as [Hle|Hlt].
  - apply Qle_bool_iff. apply Qle_trans with (inject_Z (Qfloor t)).
    + rewrite <- Zle_Qle. exact Hle.
    + apply Qfloor_le.
  - destruct (Qle_bool (inject_Z z) t) eqn:E; [|reflexivity].
    apply Qle_bool_iff, Qfloor_resp_le in E. rewrite Qfloor_Z in E. lia.
Qed.

Lemma filter_filter {A} (f g : A -> bool) (l : list A) :
  List.filter f (List.filter g l) = List.filter (fun x => g x && f x) l.
Proof.
  induction l as [|x l IH]; [reflexivity|].
  cbn [List.filter]. destruct (g x); cbn [andb List.filter]; [|exact IH].
  destruct (f x); rewrite IH; reflexivity.
Qed.

Lemma filterDate_window (c : @ImageCollection geometry) :
  filterDate "1995-01-01" "2015-12-31" c
  = Ok (List.filter (date_passes (9131 * millis_per_day) (16800 * millis_per_day)) c).
Proof. reflexivity. Qed.

Lemma filters_are_passes (region : geometry) (c : ImageCollection) :
  filterBounds intersects region
    (filterMetadata "CLOUD_COVER_LAND" less_than (PNumber 80)
       (List.filter (dayOfYear 121 273)
          (List.filter (date_passes (9131 * millis_per_day) (16800 * millis_per_day)) c)))
  = List.filter (passes intersects region) c.
Proof.
  unfold filterBounds, filterMetadata. rewrite !filter_filter.
  apply List.filter_ext. intros img. unfold passes. rewrite !andb_assoc. reflexivity.
Qed.

Lemma temporal_window_iff (t : Q) :
  Qle_bool (inject_Z (9131 * millis_per_day)) t
  && negb (Qle_bool (inject_Z (16800 * millis_per_day)) t)
  && ((121 <=? day_of_year t) && (day_of_year t <=? 273)) = true
  <-> in_date_range t /\ in_season t.
Proof.
  unfold in_date_range, in_season.
  change (days_from_civil 1995 1 1) with 9131.
  change (days_from_civil 2015 12 31) with 16800.
  rewrite !Qle_bool_inject_floor.
  assert (day_number t = 16800 -> day_of_year t = 365) as Hlast.
  { intros Hd. unfold day_of_year. rewrite Hd. reflexivity. }
  unfold day_number, millis_per_day in *.
  rewrite !andb_true_iff, negb_true_iff, !Z.leb_le, Z.leb_gt.
  pose proof (Z.div_mod (Qfloor t) 86400000 ltac:(lia)) as Hdm.
  pose proof (Z.mod_pos_bound (Qfloor t) 86400000 ltac:(lia)) as Hmb.
  split.
  - intros [[Hs He] Hdoy]. split; [lia|exact Hdoy].
  - intros [[Hs He] Hdoy]. split; [|exact Hdoy].
    assert (Qfloor t / 86400000 <> 16800) by (intros Heq; apply Hlast in Heq; lia).
    lia.
Qed.

Lemma passes_iff (region : geometry) img :
  passes intersects region img = true <-> qualifies intersects region img.
Proof.
  unfold passes, qualifies, date_passes, dayOfYear, metadata_passes, bounds_pass.
  change (121 <=? 273) with true. cbv iota.
  rewrite !andb_true_iff.
  destruct (image_get img "system:time_start") as [[s|t]|].
  - split; [intros [[[H _] _] _]; discriminate H|].
    intros (_ & (t & Ht & _) & _). discriminate Ht.
  - pose proof (temporal_window_iff t) as Hw. rewrite andb_true_iff in Hw.
    destruct (image_get img "CLOUD_COVER_LAND") as [[s|cover]|].
    + split; [intros [[_ H] _]; discriminate H|].
      intros (_ & _ & (cover & Hc & _)). discriminate Hc.
    + cbn [compare_property]. split.
      * intros [[[Hd Hs] Hc] Hb]. split; [|split].
        -- destruct (footprint img); [exact Hb|exact I].
        -- exists t. split; [reflexivity|]. apply Hw. split; assumption.
        -- exists cover. split; [reflexivity|].
           apply Qnot_le_lt. intros Hle. apply Qle_bool_iff in Hle.
           rewrite Hle in Hc. discriminate Hc.
      * intros (Hb & (t' & Ht & Hd & Hs) & (cover' & Hc & Hlt)).
        injection Ht as <-. injection Hc as <-.
        destruct Hw as [_ Hw]. destruct (Hw (conj Hd Hs)) as [Hd' Hs'].
        repeat split; try assumption.
        -- apply negb_true_iff. destruct (Qle_bool 80 cover) eqn:E; [|reflexivity].
           apply Qle_bool_iff in E. exfalso. revert E. apply Qlt_not_le, Hlt.
        -- destruct (footprint img); [exact Hb|reflexivity].
    + split; [intros [[_ H] _]; discriminate H|].
      intros (_ & _ & (cover & Hc & _)). discriminate Hc.
  - split; [intros [[[H _] _] _]; discriminate H|].
    intros (_ & (t & Ht & _) & _). discriminate Ht.
Qed.

(** Selecting the six canonical bands from [cloud_mask]'s output
    succeeds; it drops the quality band and nothing else. *)
Lemma select_after_cloud_mask (raw out : @Image geometry) :
  cloud_mask raw = Ok out ->
  exists img,
    select canonical_bands out = Ok img /\
    bandNames img = canonical_bands /\
    properties img = properties out /\
    forall band p, In band canonical_bands -> band_value img band p = band_value out band p.
Proof.
  intros H.
  destruct (cloud_mask_inv raw out H)
    as (qa & b1 & b2 & b3 & b4 & b5 & b7 & t & _ & _ & _ & _ & _ & _ & _ & _ & ->).
  eexists. split; [reflexivity|]. split; [reflexivity|]. split; [reflexivity|].
  intros band p Hin. unfold canonical_bands in Hin. cbn [In] in Hin.
  repeat (destruct Hin as [<-|Hin]; [reflexivity|]). destruct Hin.
Qed.

Lemma preprocessed_total (raw : @Image geometry) :
  raw_scene_ok raw -> exists img, preprocessed raw img.
Proof.
  intros [Hbands [t Ht]].
  assert (forall rn cn, In (rn, cn) band_renames ->
                        exists r : raster, find_band rn (bands raw) = Some r) as Hb.
  { intros rn cn Hin. destruct (Hbands rn cn Hin) as [r Hr]. eauto. }
  unfold band_renames in Hb.
  destruct (Hb "B1" "blue") as [b1 H1]; [cbn; tauto|].
  destruct (Hb "B2" "green") as [b2 H2]; [cbn; tauto|].
  destruct (Hb "B3" "red") as [b3 H3]; [cbn; tauto|].
  destruct (Hb "B4" "NIR") as [b4 H4]; [cbn; tauto|].
  destruct (Hb "B5" "SWIR1") as [b5 H5]; [cbn; tauto|].
  destruct (Hb "B7" "SWIR2") as [b7 H7]; [cbn; tauto|].
  destruct (Hb "pixel_qa" "pixel_qa") as [qa Hqa]; [cbn; tauto|].
  pose proof (cloud_mask_ok raw qa b1 b2 b3 b4 b5 b7 t Hqa H1 H2 H3 H4 H5 H7 Ht) as Hok.
  destruct (select_after_cloud_mask raw _ Hok) as (img & Hsel & _).
  exists img. eexists. split; [exact Hok|exact Hsel].
Qed.

Lemma mapM_two_stages {A B C} (f : A -> result B) (g : B -> result C) (l : list A) :
  (forall x, In x l -> exists y z, f x = Ok y /\ g y = Ok z) ->
  exists l', (c ← mapM f l; mapM g c) = Ok l' /\
             Forall2 (fun x z => exists y, f x = Ok y /\ g y = Ok z) l l'.
Proof.
  induction l as [|x l IH]; intros H.
  - exists []. split; [reflexivity|constructor].
  - destruct (H x (or_introl eq_refl)) as (y & z & Hy & Hz).
    destruct IH as (l' & Hl' & HF); [intros x' Hx'; apply H; right; exact Hx'|].
    exists (z :: l'). split.
    + rewrite mapM_cons, Hy. destruct (mapM f l) as [ys|] eqn:E; [|discriminate Hl'].
      cbn [mbind result_bind] in Hl' |- *. rewrite mapM_cons, Hz, Hl'. reflexivity.
    + constructor; [eauto|exact HF].
Qed.

(** One platform's pipeline: the qualifying scenes of the archive, in
    order, each preprocessed. *)
Lemma platform_collection (region : geometry) (archive : ImageCollection) :
  (forall raw, In raw archive -> qualifies intersects region raw -> raw_scene_ok raw) ->
  exists c,
    lt5_collection intersects region archive = Ok c /\
    le7_collection intersects region archive = Ok c /\
    Forall2 preprocessed (List.filter (passes intersects region) archive) c.
Proof.
  intros Hok.
  destruct (mapM_two_stages cloud_mask (select canonical_bands)
              (List.filter (passes intersects region) archive)) as (c & Hc & HF).
  { intros raw Hin. apply filter_In in Hin as [Hin Hp]. apply passes_iff in Hp.
    destruct (preprocessed_total raw (Hok raw Hin Hp)) as (img & out & Ho & Hs). eauto. }
  exists c. unfold lt5_collection, le7_collection.
  rewrite filterDate_window. cbn [mbind result_bind]. cbv zeta.
  rewrite filters_are_passes. repeat split; [exact Hc|exact Hc|exact HF].
Qed.

(** C7: a raw scene survives one platform's filters exactly when it
    intersects the region, its date lies between 1995-01-01 and
    2015-12-31, its day of the year between 121 and 273, and its cloud
    cover is below 80; each survivor is preprocessed; the combined
    collection is the Landsat 5 collection followed by the Landsat 7 one,
    nothing dropped. *)
Theorem assembled_collection (detroit_msa : geometry) (LT05 LE07 : ImageCollection) :
  (forall raw, In raw (LT05 ++ LE07) ->
               qualifies intersects detroit_msa raw -> raw_scene_ok raw) ->
  exists (survives : Image -> bool) (lt5 le7 : ImageCollection),
    (forall raw, survives raw = true <-> qualifies intersects detroit_msa raw) /\
    lt5_collection intersects detroit_msa LT05 = Ok lt5 /\
    le7_collection intersects detroit_msa LE07 = Ok le7 /\
    Forall2 preprocessed (List.filter survives LT05) lt5 /\
    Forall2 preprocessed (List.filter survives LE07) le7 /\
    lt5_le7_collection intersects detroit_msa LT05 LE07 = Ok (lt5 ++ le7) /\
    length (lt5 ++ le7)
    = (length (List.filter survives LT05) + length (List.filter survives LE07))%nat.
Proof.
  intros Hok.
  destruct (platform_collection detroit_msa LT05) as (lt5 & H5 & _ & HF5).
  { intros raw Hin. apply Hok. apply in_or_app. left. exact Hin. }
  destruct (platform_collection detroit_msa LE07) as (le7 & _ & H7 & HF7).
  { intros raw Hin. apply Hok. apply in_or_app. right. exact Hin. }
  exists (passes intersects detroit_msa), lt5, le7.
  split; [intros raw; apply passes_iff|].
  repeat split; try assumption.
  - unfold lt5_le7_collection. rewrite H5, H7. reflexivity.
  - rewrite length_app.
    rewrite (Forall2_length _ _ _ HF5), (Forall2_length _ _ _ HF7). reflexivity.
Qed.

Lemma mapM_two_stages_inv {A B C} (f : A -> result B) (g : B -> result C)
    (l : list A) (l' : list C) :
  (c ← mapM f l; mapM g c) = Ok l' ->
  Forall2 (fun x z => exists y, f x = Ok y /\ g y = Ok z) l l'.
Proof.
  intros H. destruct (mapM f l) as [ys|] eqn:E; [|discriminate H].
  cbn [mbind result_bind] in H.
  apply mapM_Ok_Forall2 in E, H.
  revert l' H. induction E as [|x y l ys Hxy _ IH]; intros l' H.
  - inversion H. constructor.
  - inversion H as [|? z ? zs Hyz Hrest]; subst. constructor; [eauto|]. apply IH, Hrest.
Qed.

Lemma platform_collection_inv (region : geometry) (archive c : ImageCollection) :
  lt5_collection intersects region archive = Ok c \/
  le7_collection intersects region archive = Ok c ->
  Forall2 preprocessed (List.filter (passes intersects region) archive) c.
Proof.
  unfold lt5_collection, le7_collection.
  rewrite filterDate_window. cbn [mbind result_bind]. cbv zeta.
  rewrite filters_are_passes. intros [H|H]; apply mapM_two_stages_inv, H.
Qed.

Lemma preprocessed_bands (raw img : @Image geometry) :
  preprocessed raw img -> bandNames img = canonical_bands.
Proof.
  intros (out & Hout & Hsel).
  destruct (select_after_cloud_mask raw out Hout) as (img' & Hsel' & Hb & _).
  congruence.
Qed.

Lemma Forall2_In_r {A B} (P : A -> B -> Prop) (l : list A) (l' : list B) (y : B) :
  Forall2 P l l' -> In y l' -> exists x, In x l /\ P x y.
Proof.
  induction 1 as [|x y' l l' Hxy _ IH]; intros Hin; [destruct Hin|].
  destruct Hin as [<-|Hin].
  - exists x. split; [left; reflexivity|exact Hxy].
  - destruct (IH Hin) as (x' & Hx' & HP). exists x'. split; [right; exact Hx'|exact HP].
Qed.

(** Every image of the combined collection is a preprocessed raw scene of
    one of the archives. *)
Lemma combined_collection_inv (region : geometry) (LT05 LE07 c : ImageCollection) :
  lt5_le7_collection intersects region LT05 LE07 = Ok c ->
  forall img, In img c ->
    exists raw, In raw (LT05 ++ LE07) /\ preprocessed raw img.
Proof.
  unfold lt5_le7_collection. intros H img Hin.
  destruct (lt5_collection intersects region LT05) as [lt5|] eqn:E5; [|discriminate H].
  destruct (le7_collection intersects region LE07) as [le7|] eqn:E7; [|discriminate H].
  cbn [mbind result_bind] in H. injection H as <-.
  unfold merge in Hin. apply in_app_or in Hin.
  destruct Hin as [Hin|Hin].
  - destruct (Forall2_In_r _ _ _ img
                (platform_collection_inv region LT05 lt5 (or_introl E5)) Hin)
      as (raw & Hraw & Hp).
    apply filter_In in Hraw as [Hraw _].
    exists raw. split; [apply in_or_app; left; exact Hraw|exact Hp].
  - destruct (Forall2_In_r _ _ _ img
                (platform_collection_inv region LE07 le7 (or_intror E7)) Hin)
      as (raw & Hraw & Hp).
    apply filter_In in Hraw as [Hraw _].
    exists raw. split; [apply in_or_app; right; exact Hraw|exact Hp].
Qed.

Lemma bandNames_reduce (red : reducer) (first : @Image geometry) rest :
  bandNames (reduce_images red (first :: rest)) = bandNames first.
Proof.
  unfold bandNames, reduce_images. cbn [bands].
  rewrite map_map. cbn [fst]. apply map_id.
Qed.

(** C10, amended: [cloud_mask] keeps the quality band and divides it
    by 10000 like every other band, so wherever it is valid and the raw
    bitfield is not zero it differs from the raw bitfield; the images of
    the combined collection carry the six canonical bands and no quality
    band; and so does the median composite of every year that has a
    scene. *)
Theorem quality_band_scaled_then_dropped (detroit_msa : geometry)
    (LT05 LE07 c : ImageCollection) :
  lt5_le7_collection intersects detroit_msa LT05 LE07 = Ok c ->
  (forall raw out,
     cloud_mask raw = Ok out ->
     In "pixel_qa" (bandNames out) /\
     forall p v, band_value out "pixel_qa" p = Some v ->
       exists q, band_value raw "pixel_qa" p = Some q /\
                 (v == q / 10000)%Q /\ (~ (q == 0)%Q -> ~ (v == q)%Q)) /\
  (forall img, In img c -> bandNames img = canonical_bands) /\
  (forall year,
     (exists img, In img c /\ image_get img "year" = Some (PString year)) ->
     bandNames (annual_composite_median c year) = canonical_bands).
Proof.
  intros Hc.
  assert (forall img, In img c -> bandNames img = canonical_bands) as Hbands.
  { intros img Hin.
    destruct (combined_collection_inv detroit_msa LT05 LE07 c Hc img Hin) as (raw & _ & Hp).
    apply (preprocessed_bands raw img Hp). }
  split; [|split].
  - intros raw out Hout. split.
    + destruct (cloud_mask_inv raw out Hout)
        as (qa & b1 & b2 & b3 & b4 & b5 & b7 & t & _ & _ & _ & _ & _ & _ & _ & _ & ->).
      cbn. tauto.
    + intros p v Hv.
      rewrite (cloud_mask_band raw out "pixel_qa" "pixel_qa" p Hout) in Hv
        by (unfold band_renames; cbn [In]; tauto).
      destruct (kept (band_value raw "pixel_qa") p); [|discriminate Hv].
      destruct (band_value raw "pixel_qa" p) as [q|]; [|discriminate Hv].
      injection Hv as <-. exists q. split; [reflexivity|]. split; [reflexivity|].
      intros Hq Heq. apply Hq.
      assert (q / 10000 == q * (1 # 10000))%Q as Hdiv by reflexivity.
      rewrite Hdiv in Heq. lra.
  - exact Hbands.
  - intros year (img & Hin & Hyear).
    unfold annual_composite_median. rewrite filterMetadata_year.
    assert (In img (List.filter (has_year year) c)) as Hf
      by (apply In_filter_has_year; split; assumption).
    destruct (List.filter (has_year year) c) as [|first rest] eqn:E; [destruct Hf|].
    unfold median, image_set, bandNames at 1. cbn [bands].
    fold (bandNames (reduce_images Reducer_median (first :: rest))).
    rewrite bandNames_reduce. apply Hbands.
    assert (In first (List.filter (has_year year) c)) as Hfirst
      by (rewrite E; left; reflexivity).
    apply filter_In in Hfirst as [Hfirst _]. exact Hfirst.
Qed.

End Assembler.

(** *** The export driver *)

Section ExportDriver.

Variable intersects : geometry -> geometry -> bool.
Variable contains : geometry -> pixel -> bool.
Variable bounds : geometry -> geometry.

Lemma updateMask_single img (mask : @Image geometry) n (m : raster) :
  bands mask = [(n, m)] ->
  updateMask img mask
  = Ok (mkImage (map (fun x : string * raster => (x.1, mask_raster x.2 m)) (bands img))
                (properties img) (footprint img)).
Proof.
  intros Hm. unfold updateMask. rewrite (pair_bands_single _ _ _ n m Hm). reflexivity.
Qed.

Lemma band_value_masked (bs : list (string * raster)) props (fp : option geometry)
    (m : raster) band p :
  band_value (mkImage (map (fun x : string * raster => (x.1, mask_raster x.2 m)) bs)
                      props fp) band p
  = match m p with
    | Some v => if is_nonzero v then band_value (mkImage bs props fp) band p else None
    | None => None
    end.
Proof.
  unfold band_value. cbn [bands].
  rewrite (find_band_map (fun r => mask_raster r m)).
  destruct (find_band band bs) as [r|]; cbn [option_map].
  - reflexivity.
  - destruct (m p) as [v|]; [destruct (is_nonzero v)|]; reflexivity.
Qed.

Lemma band_value_clip (g : geometry) img band p :
  band_value (clip contains g img) band p
  = if contains g p then band_value img band p else None.
Proof.
  unfold band_value, clip. cbn [bands].
  rewrite (find_band_map (fun (r : raster) p => if contains g p then r p else None)).
  destruct (find_band band (bands img)) as [r|]; cbn [option_map]; [reflexivity|].
  destruct (contains g p); reflexivity.
Qed.

Lemma water_ok (surface_water : @Image geometry) (extent : raster) :
  find_band "max_extent" (bands surface_water) = Some extent ->
  water surface_water
  = Ok (mkImage [("constant", where_raster extent (fun _ => Some 0%Q) (fun _ => Some 1%Q))]
                ∅ None).
Proof.
  intros H. unfold water, select, select_as.
  cbn [mapM combine mbind result_bind fst snd]. rewrite H. reflexivity.
Qed.

Lemma find_band_is_Some (img : @Image geometry) (band : string) :
  In band (bandNames img) -> is_Some (find_band band (bands img)).
Proof.
  unfold bandNames. induction (bands img) as [|[n r] bs IH]; intros Hin; [destruct Hin|].
  cbn [find_band]. destruct (String.eqb_spec n band) as [->|Hne]; [eauto|].
  destruct Hin as [Heq|Hin]; [contradiction|]. apply IH, Hin.
Qed.

Lemma range_lookup (a b : Z) (i : nat) :
  (Z.of_nat i < b - a) -> range a b !! i = Some (a + Z.of_nat i).
Proof.
  intros Hi. unfold range. rewrite list_lookup_fmap, lookup_seq_lt by lia. reflexivity.
Qed.

Lemma combined_dates_are_years : combined_dates = map format_d (range 1995 2016).
Proof. reflexivity. Qed.

(** What one round of the export loop computes. *)
Lemma export_step (detroit_msa : geometry) (cdl : @Image geometry) (extent : raster)
    (cn : string) (cm : raster) (comps : ImageCollection) (i : nat) (img : Image) :
  bands cdl = [(cn, cm)] ->
  comps !! i = Some img ->
  (i < 21)%nat ->
  exists task,
    match comps !! i with
    | None => Err "List.get: index out of bounds"
    | Some img =>
        m ← updateMask img
              (mkImage [("constant",
                         where_raster extent (fun _ => Some 0%Q) (fun _ => Some 1%Q))]
                       ∅ None);
        img_masked ← updateMask m cdl;
        match range 1995 2016 !! i with
        | None => Err "IndexError: list index out of range"
        | Some year =>
            Ok (mkExportTask img_masked
                  (String.append "LT5-LE7_SR_Maximum_NDVI_" (format_d year))
                  (bounds detroit_msa) "EarthEngine" 30 "EPSG:32617")
        end
    end = Ok task /\
    description task = description_of (1995 + Z.of_nat i) /\
    scale task = 30 /\
    forall band p,
      band_value (image task) band p =
      match cm p with
      | Some v =>
          if is_nonzero v
          then match extent p with
               | Some t => if is_nonzero t then None else band_value img band p
               | None => band_value img band p
               end
          else None
      | None => None
      end.
Proof.
  intros Hcdl Himg Hi. rewrite Himg.
  set (W := where_raster extent (fun _ => Some 0%Q) (fun _ => Some 1%Q)).
  rewrite (updateMask_single img (mkImage [("constant", W)] ∅ None) "constant" W eq_refl).
  cbn [mbind result_bind].
  rewrite (updateMask_single _ cdl cn cm Hcdl). cbn [mbind result_bind].
  rewrite (range_lookup 1995 2016 i) by lia.
  eexists. split; [reflexivity|]. split; [reflexivity|]. split; [reflexivity|].
  intros band p. cbn [image bands properties footprint].
  rewrite !band_value_masked.
  destruct (cm p) as [v|]; [|reflexivity].
  destruct (is_nonzero v); [|reflexivity].
  unfold W, where_raster. destruct (extent p) as [t|].
  - destruct (is_nonzero t); reflexivity.
  - reflexivity.
Qed.

Lemma descriptions_distinct : NoDup (map description_of (range 1995 2016)).
Proof. refine (bool_decide_unpack _ _). vm_compute. exact I. Qed.

(** C6, amended: with well-formed archives, a surface water image that
    has a [max_extent] band and a one-band never-cultivated mask, the
    export loop starts 21 tasks, described [LT5-LE7_SR_Maximum_NDVI_1995]
    to [LT5-LE7_SR_Maximum_NDVI_2015], each description once; for each
    year from 1995 to 2015 the task at the year's position exports the
    year's maximum-index composite clipped to the study region,
    masked wherever the surface water image indicates water and wherever
    the never-cultivated mask is 0, under the description
    [LT5-LE7_SR_Maximum_NDVI_<year>] and at scale 30. *)
Theorem export_tasks_spec (detroit_msa : geometry) (surface_water cdl : Image)
    (LT05 LE07 : ImageCollection) :
  (forall raw, In raw (LT05 ++ LE07) ->
               qualifies intersects detroit_msa raw -> raw_scene_ok raw) ->
  is_Some (find_band "max_extent" (bands surface_water)) ->
  length (bands cdl) = 1%nat ->
  exists c tasks,
    lt5_le7_collection intersects detroit_msa LT05 LE07 = Ok c /\
    export_tasks intersects contains bounds detroit_msa surface_water cdl LT05 LE07
    = Ok tasks /\
    length tasks = 21%nat /\
    map description tasks = export_descriptions /\
    NoDup (map description tasks) /\
    forall year, 1995 <= year <= 2015 ->
      exists task comp,
        tasks !! Z.to_nat (year - 1995) = Some task /\
        annual_composite_maximum_ndvi c (format_d year) = Ok comp /\
        description task = description_of year /\
        scale task = 30 /\
        forall band p,
          (water_indicated surface_water p = true ->
           band_value (image task) band p = None) /\
          ((exists v, never_cultivated cdl p = Some v /\ (v == 0)%Q) ->
           band_value (image task) band p = None) /\
          (water_indicated surface_water p = false ->
           (exists v, never_cultivated cdl p = Some v /\ ~ (v == 0)%Q) ->
           band_value (image task) band p
           = band_value (clip contains detroit_msa comp) band p).
Proof.
  intros Hok [extent Hext] Hcdl.
  destruct (bands cdl) as [|[cn cm] [|? ?]] eqn:Ecdl; try discriminate Hcdl. clear Hcdl.
  (* the combined collection *)
  destruct (platform_collection intersects detroit_msa LT05) as (lt5 & H5 & _ & _).
  { intros raw Hin. apply Hok. apply in_or_app. left. exact Hin. }
  destruct (platform_collection intersects detroit_msa LE07) as (le7 & _ & H7 & _).
  { intros raw Hin. apply Hok. apply in_or_app. right. exact Hin. }
  assert (lt5_le7_collection intersects detroit_msa LT05 LE07 = Ok (lt5 ++ le7)) as Hc
    by (unfold lt5_le7_collection; rewrite H5, H7; reflexivity).
  set (c := lt5 ++ le7) in *.
  (* the composites of the 21 years *)
  destruct (mapM_total (fun year => annual_composite_maximum_ndvi c year) combined_dates)
    as [imgs Himgs].
  { intros year _.
    destruct (maximum_ndvi_composite c year) as (ndvis & _ & Hcomp); [|eauto].
    intros img Hin _.
    destruct (combined_collection_inv intersects detroit_msa LT05 LE07 c Hc img Hin)
      as (raw & _ & Hp).
    pose proof (preprocessed_bands raw img Hp) as Hb.
    split; apply find_band_is_Some; rewrite Hb; unfold canonical_bands; cbn [In]; tauto. }
  pose proof (proj1 (mapM_Ok_Forall2 _ _ _) Himgs) as HFimgs.
  assert (length imgs = 21%nat) as Hlen
    by (rewrite <- (Forall2_length _ _ _ HFimgs); reflexivity).
  (* one round of the loop *)
  set (comps := map (clip contains detroit_msa) imgs).
  assert (forall i, (i < 21)%nat ->
            exists comp, imgs !! i = Some comp /\
                         comps !! i = Some (clip contains detroit_msa comp) /\
                         annual_composite_maximum_ndvi c (format_d (1995 + Z.of_nat i))
                         = Ok comp) as Hcomps.
  { intros i Hi.
    assert (combined_dates !! i = Some (format_d (1995 + Z.of_nat i))) as Hdate.
    { rewrite combined_dates_are_years, list_lookup_fmap, range_lookup by lia.
      reflexivity. }
    destruct (Forall2_lookup_l _ _ _ _ _ HFimgs Hdate) as (comp & Hcomp & Hann).
    exists comp. split; [exact Hcomp|]. split; [|exact Hann].
    unfold comps. rewrite list_lookup_fmap, Hcomp. reflexivity. }
  (* the loop *)
  unfold export_tasks, composites_ndvi_first.
  rewrite Hc. cbn [mbind result_bind]. rewrite Himgs. cbn [mbind result_bind].
  rewrite (water_ok surface_water extent Hext). cbn [mbind result_bind].
  fold comps.
  assert (length comps = 21%nat) as Hlenc by (unfold comps; rewrite length_map; exact Hlen).
  rewrite Hlenc.
  match goal with |- context [mapM ?f (seq 0 21)] => set (F := f) end.
  destruct (mapM_total F (seq 0 21)) as [tasks Htasks].
  { intros i Hi. apply in_seq in Hi.
    destruct (Hcomps i) as (comp & _ & Hcomp & _); [lia|].
    destruct (export_step detroit_msa cdl extent cn cm comps i _ Ecdl Hcomp)
      as (task & Htask & _); [lia|].
    exists task. exact Htask. }
  pose proof (proj1 (mapM_Ok_Forall2 _ _ _) Htasks) as HFtasks.
  assert (length tasks = 21%nat) as Hlent
    by (rewrite <- (Forall2_length _ _ _ HFtasks); reflexivity).
  assert (forall i, (i < 21)%nat ->
            exists task comp,
              tasks !! i = Some task /\
              annual_composite_maximum_ndvi c (format_d (1995 + Z.of_nat i)) = Ok comp /\
              description task = description_of (1995 + Z.of_nat i) /\
              scale task = 30 /\
              forall band p,
                band_value (image task) band p =
                match cm p with
                | Some v =>
                    if is_nonzero v
                    then match extent p with
                         | Some t => if is_nonzero t then None
                                     else band_value (clip contains detroit_msa comp) band p
                         | None => band_value (clip contains detroit_msa comp) band p
                         end
                    else None
                | None => None
                end) as Hround.
  { intros i Hi.
    destruct (Hcomps i Hi) as (comp & _ & Hcomp & Hann).
    assert (seq 0 21 !! i = Some i) as Hseq by (rewrite lookup_seq_lt by lia; reflexivity).
    destruct (Forall2_lookup_l _ _ _ _ _ HFtasks Hseq) as (task & Htask & HFi).
    destruct (export_step detroit_msa cdl extent cn cm comps i _ Ecdl Hcomp Hi)
      as (task' & Htask' & Hd & Hs & Hv).
    assert (Ok task' = Ok task) as Heq by (rewrite <- Htask'; exact HFi).
    injection Heq as ->.
    exists task, comp. repeat split; assumption. }
  assert (map description tasks = map description_of (range 1995 2016)) as Hdesc.
  { apply list_eq. intros i. rewrite !list_lookup_fmap.
    destruct (Nat.lt_ge_cases i 21) as [Hi|Hi].
    + destruct (Hround i Hi) as (task & _ & Htask & _ & Hd & _).
      rewrite Htask, range_lookup by lia. cbn. rewrite Hd. reflexivity.
    + rewrite !lookup_ge_None_2; [reflexivity| |]; [|rewrite Hlent; exact Hi].
      unfold range. rewrite length_map, length_seq. exact Hi. }
  exists c, tasks. split; [reflexivity|]. split; [exact Htasks|]. split; [exact Hlent|].
  split; [rewrite Hdesc; vm_compute; reflexivity|].
  split; [rewrite Hdesc; apply descriptions_distinct|].
  intros year Hyear.
  { 
    destruct (Hround (Z.to_nat (year - 1995))) as (task & comp & Htask & Hann & Hd & Hs & Hv);
      [lia|].
    replace (1995 + Z.of_nat (Z.to_nat (year - 1995))) with year in * by lia.
    exists task, comp. do 4 (split; [assumption|]).
    intros band p.
    assert (band_value surface_water "max_extent" p = extent p) as Hextent
      by (unfold band_value; rewrite Hext; reflexivity).
    split; [|split].
    + unfold water_indicated. rewrite Hextent. intros Hw. rewrite Hv.
      destruct (cm p) as [v|]; [|reflexivity].
      destruct (is_nonzero v); [|reflexivity].
      destruct (extent p) as [t|]; [|discriminate Hw]. rewrite Hw. reflexivity.
    + unfold never_cultivated. rewrite Ecdl. intros (v & Hcv & Hv0). rewrite Hv, Hcv.
      unfold is_nonzero. apply Qeq_bool_iff in Hv0. rewrite Hv0. reflexivity.
    + unfold water_indicated, never_cultivated. rewrite Hextent, Ecdl.
      intros Hw (v & Hcv & Hv0). rewrite Hv, Hcv.
      assert (is_nonzero v = true) as ->.
      { unfold is_nonzero. destruct (Qeq_bool v 0) eqn:E; [|reflexivity].
        apply Qeq_bool_iff in E. contradiction. }
      destruct (extent p) as [t|]; [rewrite Hw|]; reflexivity. }
Qed.

End ExportDriver.

End Properties.

(** ** Instances on the example scenes *)

Lemma cloud_mask_rescales_witness :
  exists rv : Q, band_value clear_scene "B4" (0, 0) = Some rv /\
            5000 # 10000 == rv / 10000 /\
            (rv == 5000 -> 5000 # 10000 == 1 # 2) /\ (rv == 2000 -> 5000 # 10000 == 1 # 5).
Proof.
  apply (cloud_mask_rescales clear_scene (get_ok clear_scene (cloud_mask clear_scene))
           "B4" "NIR" (0, 0) (5000 # 10000)).
  - reflexivity.
  - unfold reflectance_bands. cbn [In]. tauto.
  - reflexivity.
Defined.

(** C1, on the code: the pixel [(0, 0)] of [cloudy_scene] has its cloud
    bit set, and [cloud_mask] keeps it, since a neighbour is clear; the
    pixels around it are kept as well. *)
Theorem cloud_mask_keeps_cloud_pixel :
  exists (q : Q) (out : @Image unit) (v w : Q),
    band_value cloudy_scene "pixel_qa" (0, 0) = Some q /\ Z.testbit (Qfloor q) 5 = true /\
    cloud_mask cloudy_scene = Ok out /\
    band_value out "NIR" (0, 0) = Some v /\ v == 1 # 2 /\
    band_value out "NIR" (1, 1) = Some w /\ w == 1 # 2.
Proof.
  exists 32%Q, (get_ok cloudy_scene (cloud_mask cloudy_scene)), (5000 # 10000), (5000 # 10000).
  repeat split; reflexivity.
Qed.

(** C2 as stated fails: in [negative_scene] NIR + red is 2/10, not zero,
    and [ndvi] gives a masked pixel, not [(NIR - red) / (NIR + red)]. *)
Lemma ndvi_negative_input_masked :
  exists (out : @Image unit) (n r : Q),
    ndvi negative_scene = Ok out /\
    band_value negative_scene "NIR" (0, 0) = Some n /\
    band_value negative_scene "red" (0, 0) = Some r /\
    ~ (n + r == 0)%Q /\
    band_value out "nd" (0, 0) = None /\
    band_value out "nd" (0, 0) <> Some ((n - r) / (n + r))%Q.
Proof.
  exists (get_ok negative_scene (ndvi negative_scene)), (- 1 # 10)%Q, (3 # 10)%Q.
  repeat split; try reflexivity; discriminate.
Qed.

Lemma ndvi_value_witness :
  exists (out : @Image unit) (v : Q),
    ndvi preprocessed_clear_scene = Ok out /\
    band_value out "nd" (0, 0) = Some v /\ (v == 3 # 7)%Q.
Proof.
  destruct (ndvi_value preprocessed_clear_scene) as [out [Hok Hv]].
  - eexists; reflexivity.
  - eexists; reflexivity.
  - destruct (Hv (0, 0) (5000 # 10000)%Q (2000 # 10000)%Q eq_refl eq_refl) as [Hd _].
    exists out. eexists. split; [exact Hok|]. split.
    + apply Hd; discriminate.
    + reflexivity.
Defined.



(** The 2000 median of NIR over [example_collection] is the mean of 13/20
    and 17/20; the 2001 median is the one value 1/2. *)
Lemma annual_composite_median_spec_witness :
  exists a b : Q,
    band_value (annual_composite_median example_collection "2000") "NIR" (0, 0) = Some a /\
    (a == 3 # 4)%Q /\
    band_value (annual_composite_median example_collection "2001") "NIR" (0, 0) = Some b /\
    (b == 1 # 2)%Q.
Proof.
  destruct (annual_composite_median_spec example_collection "2000") as (_ & _ & H0).
  destruct (H0 (reflectance_scene "2000" (fun _ => Some (13 # 20)) (fun _ => Some (7 # 20)))
               "NIR" (0, 0) eq_refl)
    as (ranked0 & _ & _ & _ & Heven & _).
  { vm_compute. tauto. }
  destruct (Heven eq_refl) as (a0 & b0 & _ & _ & Hc0).
  { vm_compute. lia. }
  destruct (annual_composite_median_spec example_collection "2001") as (_ & _ & H1).
  destruct (H1 (reflectance_scene "2001" (fun _ => Some (1 # 2)) (fun _ => Some (1 # 5)))
               "NIR" (0, 0) eq_refl)
    as (ranked1 & _ & _ & Hodd & _ & _).
  { vm_compute. tauto. }
  destruct (Hodd eq_refl) as (m1 & _ & Hc1).
  exists ((a0 + b0) / 2)%Q, m1.
  assert (band_value (annual_composite_median example_collection "2000") "NIR" (0, 0)
          = Some (600 # 800)%Q) as Hv0 by reflexivity.
  assert (band_value (annual_composite_median example_collection "2001") "NIR" (0, 0)
          = Some (1 # 2)%Q) as Hv1 by reflexivity.
  assert (((a0 + b0) / 2)%Q = (600 # 800)%Q) as E0 by congruence.
  assert (m1 = (1 # 2)%Q) as E1 by congruence.
  split; [exact Hc0|]. split; [rewrite E0; reflexivity|].
  split; [exact Hc1|]. rewrite E1. reflexivity.
Defined.

(** The 2000 maximum-index composite of [example_collection]: indices
    3/10 and 7/10 give 7/10. *)
Lemma annual_composite_maximum_ndvi_spec_witness :
  exists (comp : @Image unit) (m : Q),
    annual_composite_maximum_ndvi example_collection "2000" = Ok comp /\
    image_get comp "year" = Some (PString "2000") /\
    band_value comp "nd" (0, 0) = Some m /\ (m == 7 # 10)%Q.
Proof.
  destruct (annual_composite_maximum_ndvi_spec example_collection "2000")
    as (comp & Hok & Hyear & Hmax).
  { intros img [<-|[<-|[<-|[]]]] _; split; eexists; reflexivity. }
  destruct (Hmax (0, 0)) as [_ H37].
  destruct (H37 (((13 # 20) - (7 # 20)) / ((13 # 20) + (7 # 20)))%Q
                (((17 # 20) - (3 # 20)) / ((17 # 20) + (3 # 20)))%Q)
    as (m & Hm & Heq); [reflexivity..|].
  exists comp, m. repeat split; assumption.
Defined.

(** No scene of [example_collection] is labelled 1999. *)
Lemma empty_year_composites_witness :
  (forall band p,
     band_value (annual_composite_median example_collection "1999") band p = None) /\
  exists comp : @Image unit,
    annual_composite_maximum_ndvi example_collection "1999" = Ok comp /\
    forall band p, band_value comp band p = None.
Proof.
  apply empty_year_composites.
  intros img [<-|[<-|[<-|[]]]]; vm_compute; discriminate.
Defined.

Lemma raw_scene_ok_raw_scene g y m d cover sensing_time :
  raw_scene_ok (raw_scene g y m d cover sensing_time).
Proof.
  split.
  - intros raw canon Hin. unfold band_renames in Hin. cbn [In] in Hin.
    repeat (destruct Hin as [Hin|Hin]; [injection Hin as <- <-; eexists; reflexivity|]).
    destruct Hin.
  - exists sensing_time. reflexivity.
Qed.

Lemma example_archives_ok (raw : @Image columns) :
  In raw (LT05_example ++ LE07_example) -> raw_scene_ok raw.
Proof.
  intros Hin. cbn [LT05_example LE07_example app In] in Hin.
  repeat (destruct Hin as [<-|Hin]; [apply raw_scene_ok_raw_scene|]).
  destruct Hin.
Qed.

(** Of the three Landsat 5 and two Landsat 7 example scenes one of each
    platform qualifies, both of 4 July 2011 over the same place, and both
    are in the combined collection. *)
Lemma assembled_collection_witness :
  exists lt5 le7 : @ImageCollection columns,
    lt5_le7_collection columns_intersects example_region LT05_example LE07_example
    = Ok (lt5 ++ le7) /\
    length lt5 = 1%nat /\ length le7 = 1%nat.
Proof.
  destruct (assembled_collection columns_intersects example_region
              LT05_example LE07_example)
    as (survives & lt5 & le7 & _ & H5 & H7 & _ & _ & Hmerged & _).
  { intros raw Hin _. apply example_archives_ok, Hin. }
  exists lt5, le7. split; [exact Hmerged|].
  assert (match lt5_collection columns_intersects example_region LT05_example with
          | Ok c => length c
          | Err _ => 0%nat
          end = 1%nat) as E5 by reflexivity.
  assert (match le7_collection columns_intersects example_region LE07_example with
          | Ok c => length c
          | Err _ => 0%nat
          end = 1%nat) as E7 by reflexivity.
  rewrite H5 in E5. rewrite H7 in E7. split; assumption.
Defined.
(** C10 as stated fails at its edges: the quality band of [clear_scene]
    is zero everywhere, and dividing it by 10000 leaves it equal to the
    raw bitfield at every pixel; and the example archives hold no scene
    of 1999, so the 1999 median composite carries no band at all. *)
Lemma quality_band_zero_unchanged :
  (exists out : @Image unit,
     cloud_mask clear_scene = Ok out /\
     forall p, exists v q : Q,
       band_value out "pixel_qa" p = Some v /\
       band_value clear_scene "pixel_qa" p = Some q /\ (v == q)%Q) /\
  (exists c : @ImageCollection columns,
     lt5_le7_collection columns_intersects example_region LT05_example LE07_example
     = Ok c /\
     bandNames (annual_composite_median c "1999") = []).
Proof.
  split.
  - exists (get_ok clear_scene (cloud_mask clear_scene)).
    split; [reflexivity|]. intros p.
    exists (0 / 10000)%Q, 0%Q. split; [|split; reflexivity].
    rewrite (cloud_mask_band clear_scene (get_ok clear_scene (cloud_mask clear_scene))
               "pixel_qa" "pixel_qa" p eq_refl)
      by (unfold band_renames; cbn [In]; tauto).
    assert (kept (band_value clear_scene "pixel_qa") p = true) as ->; [|reflexivity].
    apply kept_iff. split; [eexists; reflexivity|].
    exists 0, 0, 0%Q. repeat split; try lia; reflexivity.
  - exists (get_ok [] (lt5_le7_collection columns_intersects example_region
                         LT05_example LE07_example)).
    split; vm_compute; reflexivity.
Qed.

(** On the example archives: the two images of the combined collection
    and the 2011 median composite carry the six canonical bands. *)
Lemma quality_band_scaled_then_dropped_witness :
  exists c : @ImageCollection columns,
    lt5_le7_collection columns_intersects example_region LT05_example LE07_example
    = Ok c /\
    (forall img, In img c -> bandNames img = canonical_bands) /\
    bandNames (annual_composite_median c "2011") = canonical_bands.
Proof.
  set (c := get_ok [] (lt5_le7_collection columns_intersects example_region
                         LT05_example LE07_example)).
  assert (lt5_le7_collection columns_intersects example_region LT05_example LE07_example
          = Ok c) as Hc by (vm_compute; reflexivity).
  assert (match c with
          | img :: _ => image_get img "year"
          | [] => None
          end = Some (PString "2011")) as Hyear by (vm_compute; reflexivity).
  clearbody c.
  destruct (quality_band_scaled_then_dropped columns_intersects example_region
              LT05_example LE07_example c Hc) as (_ & Hbands & Hmedian).
  exists c. split; [exact Hc|]. split; [exact Hbands|].
  apply Hmedian. destruct c as [|img rest]; [discriminate Hyear|].
  exists img. split; [left; reflexivity|exact Hyear].
Defined.

(** The export over the example archives: the task of 2011 exports the
    index 3/7 at the pixel [(0, 0)], a masked pixel in the water column 3
    and in the cultivated column 4. *)
Lemma export_tasks_spec_witness :
  exists (tasks : list (@ExportTask columns)) (task : @ExportTask columns) (v : Q),
    export_tasks columns_intersects columns_contains columns_bounds example_region
      surface_water_example cdl_example LT05_example LE07_example = Ok tasks /\
    length tasks = 21%nat /\
    tasks !! 16%nat = Some task /\
    description task = "LT5-LE7_SR_Maximum_NDVI_2011" /\
    scale task = 30 /\
    band_value (image task) "nd" (0, 0) = Some v /\ (v == 3 # 7)%Q /\
    band_value (image task) "nd" (3, 0) = None /\
    band_value (image task) "nd" (4, 0) = None.
Proof.
  destruct (export_tasks_spec columns_intersects columns_contains columns_bounds
              example_region surface_water_example cdl_example LT05_example LE07_example)
    as (c & tasks & Hc & Htasks & Hlen & _ & _ & Hyears).
  { intros raw Hin _. apply example_archives_ok, Hin. }
  { eexists. reflexivity. }
  { reflexivity. }
  destruct (Hyears 2011) as (task & comp & Htask & Hann & Hd & Hs & Hv); [lia|].
  set (c0 := get_ok [] (lt5_le7_collection columns_intersects example_region
                          LT05_example LE07_example)).
  assert (lt5_le7_collection columns_intersects example_region LT05_example LE07_example
          = Ok c0) as Hc0 by (vm_compute; reflexivity).
  assert (c = c0) as -> by congruence.
  assert (match annual_composite_maximum_ndvi c0 (format_d 2011) with
          | Ok comp => band_value (clip columns_contains example_region comp) "nd" (0, 0)
          | Err _ => None
          end = Some (3000000000000000 # 7000000000000000)%Q) as Hcomp
    by (vm_compute; reflexivity).
  rewrite Hann in Hcomp.
  exists tasks, task, (3000000000000000 # 7000000000000000)%Q.
  split; [exact Htasks|]. split; [exact Hlen|]. split; [exact Htask|].
  split; [exact Hd|]. split; [exact Hs|].
  split; [|split; [reflexivity|split]].
  - destruct (Hv "nd" (0, 0)) as (_ & _ & Hkeep).
    rewrite Hkeep; [exact Hcomp|reflexivity|].
    exists 1%Q. split; [reflexivity|discriminate].
  - destruct (Hv "nd" (3, 0)) as (Hwater & _ & _). apply Hwater. reflexivity.
  - destruct (Hv "nd" (4, 0)) as (_ & Hcult & _). apply Hcult.
    exists 0%Q. split; reflexivity.
Defined.

(** C6 as stated fails between the two stretches of the study region: the
    pixel [(15, 0)] lies within the bounds of the region that the export
    covers; there the 2011 composite of the example archives has an
    index, the surface water image indicates no water and the
    never-cultivated mask is 1, and the exported image is masked, since
    the loop exports the composite clipped to the region. *)
Lemma export_clips_outside_region :
  exists (c : @ImageCollection columns) (comp : @Image columns)
         (tasks : list (@ExportTask columns)) (task : @ExportTask columns) (v : Q),
    lt5_le7_collection columns_intersects example_region LT05_example LE07_example = Ok c /\
    annual_composite_maximum_ndvi c "2011" = Ok comp /\
    export_tasks columns_intersects columns_contains columns_bounds example_region
      surface_water_example cdl_example LT05_example LE07_example = Ok tasks /\
    tasks !! 16%nat = Some task /\
    description task = "LT5-LE7_SR_Maximum_NDVI_2011" /\
    region task = [(0, 30)] /\ columns_contains (region task) (15, 0) = true /\
    columns_contains example_region (15, 0) = false /\
    band_value comp "nd" (15, 0) = Some v /\
    water_indicated surface_water_example (15, 0) = false /\
    never_cultivated cdl_example (15, 0) = Some 1%Q /\
    band_value (image task) "nd" (15, 0) = None.
Proof.
  set (c := get_ok [] (lt5_le7_collection columns_intersects example_region
                         LT05_example LE07_example)).
  set (comp := get_ok (constant 0) (annual_composite_maximum_ndvi c "2011")).
  set (tasks := get_ok [] (export_tasks columns_intersects columns_contains
                             columns_bounds example_region surface_water_example
                             cdl_example LT05_example LE07_example)).
  exists c, comp, tasks,
    (match tasks !! 16%nat with
     | Some task => task
     | None => mkExportTask comp "" example_region "" 0 ""
     end),
    (3000000000000000 # 7000000000000000)%Q.
  do 11 (split; [vm_compute; reflexivity|]).
  vm_compute. reflexivity.
Qed.

(** The cloud pixel of [cloudy_scene] is valid in [cloud_mask]'s output:
    its window holds clear pixels. *)
Lemma cloud_mask_valid_iff_witness :
  is_Some (band_value (get_ok cloudy_scene (cloud_mask cloudy_scene)) "NIR" (0, 0)) <->
  is_Some (band_value cloudy_scene "B4" (0, 0)) /\
  is_Some (band_value cloudy_scene "pixel_qa" (0, 0)) /\
  exists dx dy q, -1 <= dx <= 1 /\ -1 <= dy <= 1 /\
                  band_value cloudy_scene "pixel_qa" (0 + dx, 0 + dy) = Some q /\
                  contaminated q = false.
Proof.
  apply (cloud_mask_valid_iff cloudy_scene (get_ok cloudy_scene (cloud_mask cloudy_scene))
           "B4" "NIR" (0, 0)).
  - reflexivity.
  - unfold band_renames. cbn [In]. tauto.
Defined.

(** ** Further properties of the notebook's functions *)

Section Further.

Context {geometry : Type}.
Implicit Types (img out raw : @Image geometry) (p : pixel).

(** *** The preprocessor: when it fails, and what it leaves of the
    metadata *)

Lemma cloud_mask_needs_raw_scene raw out : cloud_mask raw = Ok out -> raw_scene_ok raw.
Proof.
  intros H.
  destruct (cloud_mask_inv raw out H)
    as (qa & b1 & b2 & b3 & b4 & b5 & b7 & t & Hqa & H1 & H2 & H3 & H4 & H5 & H7 & Ht & _).
  split; [|eauto].
  intros rn cn Hin. unfold band_renames in Hin. cbn [In] in Hin.
  repeat (destruct Hin as [Hin|Hin]; [injection Hin as <- <-; eauto|]).
  destruct Hin.
Qed.

(** On a scene whose sensing time is a string, [cloud_mask] succeeds
    exactly when the scene has the seven bands it selects: a missing
    band fails it, and nothing else does. *)
Theorem cloud_mask_succeeds_iff raw :
  sensing_time_ok raw ->
  (exists out, cloud_mask raw = Ok out) <-> raw_bands_ok raw.
Proof.
  intros Ht. split.
  - intros [out H]. exact (proj1 (cloud_mask_needs_raw_scene raw out H)).
  - intros Hb. destruct (preprocessed_total raw (conj Hb Ht)) as (img & out & Hout & _).
    eauto.
Qed.


(** *** The index calculator: when it fails, and its metadata *)

(** [ndvi] succeeds exactly on images that have a [NIR] and a [red] band.
    Its output then has the one band [nd], the footprint of the input and
    at most two properties: [variable], which is [NDVI], and [year],
    which is the input's year label when it has one. *)
Theorem ndvi_result img :
  match ndvi img with
  | Ok out =>
      is_Some (find_band "NIR" (bands img)) /\ is_Some (find_band "red" (bands img)) /\
      bandNames out = ["nd"] /\
      footprint out = footprint img /\
      image_get out "variable" = Some (PString "NDVI") /\
      image_get out "year" = image_get img "year" /\
      forall key, key <> "variable" -> key <> "year" -> image_get out key = None
  | Err _ =>
      find_band "NIR" (bands img) = None \/ find_band "red" (bands img) = None
  end.
Proof.
  destruct (find_band "NIR" (bands img)) as [nir|] eqn:Hn;
    [destruct (find_band "red" (bands img)) as [red|] eqn:Hr|].
  - rewrite (ndvi_ok img nir red Hn Hr).
    split; [eauto|]. split; [eauto|]. split; [reflexivity|]. split; [reflexivity|].
    unfold image_get. cbn [properties]. split; [|split].
    + apply lookup_insert_eq.
    + rewrite lookup_insert_ne by discriminate.
      destruct (properties img !! "year"); [apply lookup_insert_eq|apply lookup_delete_eq].
    + intros key Hv Hy. rewrite lookup_insert_ne by congruence.
      destruct (properties img !! "year").
      * rewrite lookup_insert_ne by congruence. apply lookup_empty.
      * rewrite lookup_delete_ne by congruence. apply lookup_empty.
  - unfold ndvi, normalizedDifference. rewrite Hn, Hr. cbn. right. reflexivity.
  - unfold ndvi, normalizedDifference. rewrite Hn. cbn. left. reflexivity.
Qed.


(** *** Preprocessing, then the index *)

(** The index of a preprocessed scene, pixel by pixel: where the mask
    keeps the pixel it is the normalized difference of the rescaled
    values, raw B4 over 10000 and raw B3 over 10000; where the mask drops
    the pixel, or a raw value is masked, it is masked. *)
Theorem ndvi_of_preprocessed raw img :
  preprocessed raw img ->
  exists nd,
    ndvi img = Ok nd /\
    forall p,
      band_value nd "nd" p =
      if kept (band_value raw "pixel_qa") p
      then match band_value raw "B4" p, band_value raw "B3" p with
           | Some n, Some r => normalized_difference (n / 10000) (r / 10000)
           | _, _ => None
           end
      else None.
Proof.
  intros (out & Hout & Hsel).
  destruct (select_after_cloud_mask raw out Hout) as (img' & Hsel' & Hnames & _ & Hvals).
  assert (img' = img) as -> by congruence.
  assert (In "NIR" canonical_bands /\ In "red" canonical_bands) as [Hin_nir Hin_red]
    by (unfold canonical_bands; cbn [In]; tauto).
  destruct (find_band_is_Some img "NIR") as [nir Hn]; [rewrite Hnames; exact Hin_nir|].
  destruct (find_band_is_Some img "red") as [red Hr]; [rewrite Hnames; exact Hin_red|].
  eexists. split; [apply (ndvi_ok img nir red Hn Hr)|].
  intros p.
  rewrite (ndvi_band img _ p (ndvi_ok img nir red Hn Hr)).
  rewrite (Hvals "NIR" p Hin_nir), (Hvals "red" p Hin_red).
  rewrite (cloud_mask_band raw out "B4" "NIR" p Hout)
    by (unfold band_renames; cbn [In]; tauto).
  rewrite (cloud_mask_band raw out "B3" "red" p Hout)
    by (unfold band_renames; cbn [In]; tauto).
  destruct (kept (band_value raw "pixel_qa") p); [|reflexivity].
  destruct (band_value raw "B4" p) as [n|]; cbn [option_map]; [|reflexivity].
  destruct (band_value raw "B3" p) as [r|]; cbn [option_map]; reflexivity.
Qed.


(** *** The assembled collections: when they fail, and what their
    images carry *)

Lemma Forall2_In_l {A B} (P : A -> B -> Prop) (l : list A) (l' : list B) (x : A) :
  Forall2 P l l' -> In x l -> exists y, In y l' /\ P x y.
Proof.
  induction 1 as [|x' y l l' Hxy _ IH]; intros Hin; [destruct Hin|].
  destruct Hin as [<-|Hin].
  - exists y. split; [left; reflexivity|exact Hxy].
  - destruct (IH Hin) as (y' & Hy' & HP). exists y'. split; [right; exact Hy'|exact HP].
Qed.

Lemma select_keeps_metadata (names : list string) img out :
  select names img = Ok out ->
  properties out = properties img /\ footprint out = footprint img.
Proof.
  unfold select, select_as. intros H.
  destruct (mapM _ (combine names names)) as [bs|]; [|discriminate H].
  injection H as <-. split; reflexivity.
Qed.

(** The metadata of a preprocessed scene. *)
Lemma preprocessed_metadata raw img :
  preprocessed raw img ->
  footprint img = footprint raw /\
  exists t,
    image_get raw "SENSING_TIME" = Some (PString t) /\
    properties img = <["year" := PString (substring 0 4 t)]> (<["date" := PString t]> ∅).
Proof.
  intros (out & Hout & Hsel).
  destruct (select_keeps_metadata _ _ _ Hsel) as [Hprops Hfoot].
  destruct (cloud_mask_inv raw out Hout)
    as (qa & b1 & b2 & b3 & b4 & b5 & b7 & t & _ & _ & _ & _ & _ & _ & _ & Ht & ->).
  split; [exact Hfoot|]. exists t. split; [exact Ht|exact Hprops].
Qed.

Section Assembled.

Variable intersects : geometry -> geometry -> bool.

(** Every image of the combined collection comes from a qualifying raw
    scene of one of the two archives. *)
Lemma combined_collection_sources (region : geometry) (LT05 LE07 c : ImageCollection) :
  lt5_le7_collection intersects region LT05 LE07 = Ok c ->
  forall img, In img c ->
    exists raw, In raw (LT05 ++ LE07) /\ qualifies intersects region raw /\
                preprocessed raw img.
Proof.
  unfold lt5_le7_collection. intros H img Hin.
  destruct (lt5_collection intersects region LT05) as [lt5|] eqn:E5; [|discriminate H].
  destruct (le7_collection intersects region LE07) as [le7|] eqn:E7; [|discriminate H].
  cbn [mbind result_bind] in H. injection H as <-.
  unfold merge in Hin. apply in_app_or in Hin.
  destruct Hin as [Hin|Hin].
  - destruct (Forall2_In_r _ _ _ img
                (platform_collection_inv intersects region LT05 lt5 (or_introl E5)) Hin)
      as (raw & Hraw & Hp).
    apply filter_In in Hraw as [Hraw Hq]. apply passes_iff in Hq.
    exists raw. split; [apply in_or_app; left; exact Hraw|]. split; assumption.
  - destruct (Forall2_In_r _ _ _ img
                (platform_collection_inv intersects region LE07 le7 (or_intror E7)) Hin)
      as (raw & Hraw & Hp).
    apply filter_In in Hraw as [Hraw Hq]. apply passes_iff in Hq.
    exists raw. split; [apply in_or_app; right; exact Hraw|]. split; assumption.
Qed.

(** When the qualifying scenes of the two archives have a sensing time
    that is a string, the combined collection is assembled without error
    exactly when every qualifying scene has the seven bands [cloud_mask]
    selects: one qualifying scene without them fails the whole
    collection, and scenes that do not qualify never matter. *)
Theorem combined_collection_succeeds_iff (region : geometry) (LT05 LE07 : ImageCollection) :
  (forall raw, In raw (LT05 ++ LE07) -> qualifies intersects region raw ->
               sensing_time_ok raw) ->
  (exists c, lt5_le7_collection intersects region LT05 LE07 = Ok c) <->
  (forall raw, In raw (LT05 ++ LE07) -> qualifies intersects region raw ->
               raw_bands_ok raw).
Proof.
  intros Htime. split.
  - intros [c H] raw Hin Hq. unfold lt5_le7_collection in H.
    destruct (lt5_collection intersects region LT05) as [lt5|] eqn:E5; [|discriminate H].
    destruct (le7_collection intersects region LE07) as [le7|] eqn:E7; [|discriminate H].
    apply passes_iff in Hq. apply in_app_or in Hin.
    destruct Hin as [Hin|Hin].
    + destruct (Forall2_In_l _ _ _ raw
                  (platform_collection_inv intersects region LT05 lt5 (or_introl E5)))
        as (img & _ & out & Hout & _); [apply filter_In; split; assumption|].
      exact (proj1 (cloud_mask_needs_raw_scene raw out Hout)).
    + destruct (Forall2_In_l _ _ _ raw
                  (platform_collection_inv intersects region LE07 le7 (or_intror E7)))
        as (img & _ & out & Hout & _); [apply filter_In; split; assumption|].
      exact (proj1 (cloud_mask_needs_raw_scene raw out Hout)).
  - intros Hok.
    destruct (platform_collection intersects region LT05) as (lt5 & H5 & _ & _).
    { intros raw Hin Hq.
      assert (In raw (LT05 ++ LE07)) as Hin' by (apply in_or_app; left; exact Hin).
      split; [apply (Hok raw Hin' Hq)|apply (Htime raw Hin' Hq)]. }
    destruct (platform_collection intersects region LE07) as (le7 & _ & H7 & _).
    { intros raw Hin Hq.
      assert (In raw (LT05 ++ LE07)) as Hin' by (apply in_or_app; right; exact Hin).
      split; [apply (Hok raw Hin' Hq)|apply (Htime raw Hin' Hq)]. }
    exists (lt5 ++ le7). unfold lt5_le7_collection. rewrite H5, H7. reflexivity.
Qed.


(** The index collection [lt5_le7_ndvi] never fails on an assembled
    collection: it holds, in the same order, the index image of every
    image of the combined collection, with that image's year label. *)
Theorem lt5_le7_ndvi_spec (region : geometry) (LT05 LE07 c : ImageCollection) :
  lt5_le7_collection intersects region LT05 LE07 = Ok c ->
  exists nds,
    lt5_le7_ndvi intersects region LT05 LE07 = Ok nds /\
    length nds = length c /\
    Forall2 (fun img nd => ndvi img = Ok nd /\ bandNames nd = ["nd"] /\
                           image_get nd "year" = image_get img "year" /\
                           is_Some (image_get nd "year")) c nds.
Proof.
  intros Hc.
  assert (forall img, In img c ->
            exists nd, ndvi img = Ok nd /\ is_Some (image_get img "year")) as Hall.
  { intros img Hin.
    destruct (combined_collection_sources region LT05 LE07 c Hc img Hin)
      as (raw & _ & _ & Hp).
    pose proof (preprocessed_bands raw img Hp) as Hb.
    destruct (preprocessed_metadata raw img Hp) as (_ & t & _ & Hprops).
    destruct (find_band_is_Some img "NIR") as [nir Hn];
      [rewrite Hb; unfold canonical_bands; cbn [In]; tauto|].
    destruct (find_band_is_Some img "red") as [red Hr];
      [rewrite Hb; unfold canonical_bands; cbn [In]; tauto|].
    eexists. split; [apply (ndvi_ok img nir red Hn Hr)|].
    unfold image_get. rewrite Hprops, lookup_insert_eq. eauto. }
  destruct (mapM_total ndvi c) as [nds Hnds].
  { intros img Hin. destruct (Hall img Hin) as (nd & Hnd & _). eauto. }
  exists nds. split; [unfold lt5_le7_ndvi; rewrite Hc; exact Hnds|].
  apply mapM_Ok_Forall2 in Hnds.
  split; [symmetry; apply (Forall2_length _ _ _ Hnds)|].
  clear Hc. induction Hnds as [|img nd c nds Hnd _ IH]; constructor.
  - split; [exact Hnd|]. split; [apply (ndvi_bands img nd Hnd)|].
    split; [apply (ndvi_year img nd Hnd)|].
    rewrite (ndvi_year img nd Hnd).
    destruct (Hall img (or_introl eq_refl)) as (_ & _ & Hy). exact Hy.
  - apply IH. intros img' Hin. apply Hall. right. exact Hin.
Qed.

End Assembled.

(** *** The two collections of annual composites *)

Lemma mapM_Ok_iff {A B} (f : A -> result B) (l : list A) :
  (exists l', mapM f l = Ok l') <-> (forall x, In x l -> exists y, f x = Ok y).
Proof.
  split.
  - intros [l' H] x Hin. apply mapM_Ok_Forall2 in H.
    destruct (Forall2_In_l _ _ _ x H Hin) as (y & _ & Hy). eauto.
  - apply mapM_total.
Qed.

Lemma lookup_map {A B} (f : A -> B) (l : list A) (i : nat) :
  map f l !! i = option_map f (l !! i).
Proof.
  revert i. induction l as [|x l IH]; intros [|i]; try reflexivity. apply IH.
Qed.

Lemma find_band_In (band : string) (bs : list (string * raster)) (r : raster) :
  find_band band bs = Some r -> In band (map fst bs).
Proof.
  induction bs as [|[n r'] bs IH]; cbn [find_band map fst]; [discriminate|].
  destruct (String.eqb_spec n band) as [->|Hne]; [left; reflexivity|].
  intros H. right. apply IH, H.
Qed.

Lemma existsb_has_year year (c : @ImageCollection geometry) :
  existsb (has_year year) c = true <->
  exists img, In img c /\ image_get img "year" = Some (PString year).
Proof.
  rewrite existsb_exists. split; intros (img & Hin & H); exists img; split;
    try exact Hin; apply has_year_iff; exact H.
Qed.

(** The band names of a median composite over images that all carry the
    canonical bands: those bands for a year with a scene, none for a year
    without. *)
Lemma median_composite_bands (c : @ImageCollection geometry) (year : string) :
  (forall img, In img c -> bandNames img = canonical_bands) ->
  bandNames (annual_composite_median c year)
  = if existsb (has_year year) c then canonical_bands else [].
Proof.
  intros Hbands. unfold annual_composite_median. rewrite filterMetadata_year.
  change (bandNames (image_set "year" (Some (PString year))
                        (median (List.filter (has_year year) c))))
    with (bandNames (median (List.filter (has_year year) c))).
  destruct (existsb (has_year year) c) eqn:E.
  - apply existsb_exists in E as (img & Hin & Hy).
    assert (In img (List.filter (has_year year) c)) as Hf
      by (apply filter_In; split; assumption).
    destruct (List.filter (has_year year) c) as [|first rest] eqn:Ef; [destruct Hf|].
    unfold median. rewrite bandNames_reduce. apply Hbands.
    assert (In first (List.filter (has_year year) c)) as Hfirst
      by (rewrite Ef; left; reflexivity).
    apply filter_In in Hfirst as [Hfirst _]. exact Hfirst.
  - assert (List.filter (has_year year) c = []) as ->; [|reflexivity].
    destruct (List.filter (has_year year) c) as [|first rest] eqn:Ef; [reflexivity|].
    assert (In first (List.filter (has_year year) c)) as Hfirst
      by (rewrite Ef; left; reflexivity).
    apply filter_In in Hfirst as [Hfirst Hy].
    assert (existsb (has_year year) c = true) as E'
      by (apply existsb_exists; exists first; split; assumption).
    congruence.
Qed.

Section Composites.

Variable intersects : geometry -> geometry -> bool.
Variable contains : geometry -> pixel -> bool.

Lemma bandNames_clip (g : geometry) img : bandNames (clip contains g img) = bandNames img.
Proof.
  unfold bandNames, clip. cbn [bands]. rewrite map_map. reflexivity.
Qed.

Lemma ndvi_Ok_iff_bands img :
  (exists out, ndvi img = Ok out) <-> In "NIR" (bandNames img) /\ In "red" (bandNames img).
Proof.
  split.
  - intros [out H]. destruct (ndvi_inv img out H) as (nir & red & Hn & Hr).
    split; [apply (find_band_In _ _ nir Hn)|apply (find_band_In _ _ red Hr)].
  - intros [Hn Hr].
    destruct (find_band_is_Some img "NIR" Hn) as [nir Hnir].
    destruct (find_band_is_Some img "red" Hr) as [red Hred].
    eexists. apply (ndvi_ok img nir red Hnir Hred).
Qed.

(** The median pipeline [composites] (median composite of each of the 21
    years, clipped, then [ndvi]) succeeds exactly when every year from
    1995 to 2015 has at least one scene in the combined collection: the
    composite of a year without scenes has no bands and [ndvi] fails on
    it.  When it succeeds it holds 21 one-band index images. *)
Theorem composites_succeeds_iff (detroit_msa : geometry) (LT05 LE07 c : ImageCollection) :
  lt5_le7_collection intersects detroit_msa LT05 LE07 = Ok c ->
  ((exists outs, composites intersects contains detroit_msa LT05 LE07 = Ok outs) <->
   (forall year, In year combined_dates ->
                 exists img, In img c /\ image_get img "year" = Some (PString year))) /\
  (forall outs, composites intersects contains detroit_msa LT05 LE07 = Ok outs ->
                length outs = 21%nat /\ forall nd, In nd outs -> bandNames nd = ["nd"]).
Proof.
  intros Hc.
  assert (forall img, In img c -> bandNames img = canonical_bands) as Hbands.
  { intros img Hin.
    destruct (combined_collection_inv intersects detroit_msa LT05 LE07 c Hc img Hin)
      as (raw & _ & Hp).
    apply (preprocessed_bands raw img Hp). }
  unfold composites. rewrite Hc. cbn [mbind result_bind].
  rewrite map_map.
  set (clipped := map (fun year => clip contains detroit_msa (annual_composite_median c year))
                      combined_dates).
  split.
  - etransitivity; [apply (mapM_Ok_iff ndvi clipped)|]. unfold clipped. split.
    + intros H year Hyear. apply existsb_has_year.
      destruct (H (clip contains detroit_msa (annual_composite_median c year)))
        as [out Hout]; [apply in_map_iff; eauto|].
      assert (exists out, ndvi (clip contains detroit_msa (annual_composite_median c year))
                          = Ok out) as Hex by eauto.
      apply ndvi_Ok_iff_bands in Hex as [Hn _].
      rewrite bandNames_clip, (median_composite_bands c year Hbands) in Hn.
      destruct (existsb (has_year year) c); [reflexivity|destruct Hn].
    + intros H img Hin. apply in_map_iff in Hin as (year & <- & Hyear).
      apply ndvi_Ok_iff_bands.
      rewrite bandNames_clip, (median_composite_bands c year Hbands).
      rewrite (proj2 (existsb_has_year year c) (H year Hyear)).
      unfold canonical_bands. cbn [In]. tauto.
  - intros outs Hout. apply mapM_Ok_Forall2 in Hout. split.
    + rewrite <- (Forall2_length _ _ _ Hout). unfold clipped. rewrite length_map.
      reflexivity.
    + intros nd Hin. destruct (Forall2_In_r _ _ _ nd Hout Hin) as (img & _ & Hnd).
      apply (ndvi_bands img nd Hnd).
Qed.

(** The maximum-index collection [composites_ndvi_first] never fails on
    an assembled collection, scenes or no scenes: it holds one composite
    per year of [combined_dates], in order, each tagged with its year and
    masked at every pixel outside the study region; the composite of a
    year with a scene has the one band [nd], that of a year without has
    no band. *)
Theorem composites_ndvi_first_spec (detroit_msa : geometry)
    (LT05 LE07 c : ImageCollection) :
  lt5_le7_collection intersects detroit_msa LT05 LE07 = Ok c ->
  exists comps,
    composites_ndvi_first intersects contains detroit_msa LT05 LE07 = Ok comps /\
    length comps = 21%nat /\
    forall (i : nat) (year : string),
      combined_dates !! i = Some year ->
      exists comp,
        comps !! i = Some comp /\
        image_get comp "year" = Some (PString year) /\
        bandNames comp = (if existsb (has_year year) c then ["nd"] else []) /\
        forall band p, contains detroit_msa p = false -> band_value comp band p = None.
Proof.
  intros Hc.
  assert (forall img, In img c ->
            is_Some (find_band "NIR" (bands img)) /\
            is_Some (find_band "red" (bands img))) as Hbands.
  { intros img Hin.
    destruct (combined_collection_inv intersects detroit_msa LT05 LE07 c Hc img Hin)
      as (raw & _ & Hp).
    pose proof (preprocessed_bands raw img Hp) as Hb.
    split; apply find_band_is_Some; rewrite Hb; unfold canonical_bands; cbn [In]; tauto. }
  assert (forall year,
            exists ndvis,
              Forall2 (fun img out => ndvi img = Ok out)
                      (List.filter (has_year year) c) ndvis /\
              annual_composite_maximum_ndvi c year
              = Ok (image_set "year" (Some (PString year)) (collection_max ndvis)))
    as Hcomp.
  { intros year. apply maximum_ndvi_composite. intros img Hin _. apply Hbands, Hin. }
  destruct (mapM_total (fun year => annual_composite_maximum_ndvi c year) combined_dates)
    as [imgs Himgs].
  { intros year _. destruct (Hcomp year) as (ndvis & _ & H). eauto. }
  exists (map (clip contains detroit_msa) imgs).
  split; [unfold composites_ndvi_first; rewrite Hc; cbn [mbind result_bind];
          rewrite Himgs; reflexivity|].
  apply mapM_Ok_Forall2 in Himgs.
  split; [rewrite length_map, <- (Forall2_length _ _ _ Himgs); reflexivity|].
  intros i year Hi.
  destruct (Forall2_lookup_l _ _ _ _ _ Himgs Hi) as (comp & Hcompi & Hann).
  exists (clip contains detroit_msa comp).
  split; [etransitivity; [apply lookup_map|]; rewrite Hcompi; reflexivity|].
  destruct (Hcomp year) as (ndvis & HF & Hann').
  assert (comp = image_set "year" (Some (PString year)) (collection_max ndvis)) as ->
    by congruence.
  split; [apply image_get_set|]. split.
  - rewrite bandNames_clip.
    change (bandNames (image_set "year" (Some (PString year)) (collection_max ndvis)))
      with (bandNames (collection_max ndvis)).
    destruct (List.filter (has_year year) c) as [|img0 rest] eqn:Ef.
    + inversion HF; subst.
      destruct (existsb (has_year year) c) eqn:E; [|reflexivity].
      apply existsb_exists in E as (img & Hin & Hy).
      assert (In img (List.filter (has_year year) c)) as Hf
        by (apply filter_In; split; assumption).
      rewrite Ef in Hf. destruct Hf.
    + inversion HF as [|? nd0 ? ndrest Hnd0 _]; subst.
      unfold collection_max. rewrite bandNames_reduce, (ndvi_bands img0 nd0 Hnd0).
      assert (In img0 (List.filter (has_year year) c)) as Hf
        by (rewrite Ef; left; reflexivity).
      apply filter_In in Hf as [Hin Hy].
      assert (existsb (has_year year) c = true) as ->
        by (apply existsb_exists; exists img0; split; assumption).
      reflexivity.
  - intros band p Hout. rewrite band_value_clip, Hout. reflexivity.
Qed.

End Composites.

(** *** The order of the scenes does not matter to a composite *)

Lemma option_Qeq_refl (a : option Q) : option_Qeq a a.
Proof. destruct a; cbn; [reflexivity|exact I]. Qed.

Lemma Permutation_filter_bool {A} (f : A -> bool) (l l' : list A) :
  Permutation l l' -> Permutation (List.filter f l) (List.filter f l').
Proof.
  induction 1 as [|x l l' _ IH|x y l|l l' l'' _ IH1 _ IH2]; cbn [List.filter].
  - constructor.
  - destruct (f x); [apply perm_skip|]; exact IH.
  - destruct (f x), (f y); try reflexivity. apply perm_swap.
  - etransitivity; eassumption.
Qed.

Lemma Permutation_omap {A B} (g : A -> option B) (l l' : list A) :
  Permutation l l' -> Permutation (omap g l) (omap g l').
Proof.
  induction 1 as [|x l l' _ IH|x y l|l l' l'' _ IH1 _ IH2]; cbn.
  - constructor.
  - destruct (g x); [apply perm_skip|]; exact IH.
  - destruct (g x), (g y); try reflexivity. apply perm_swap.
  - etransitivity; eassumption.
Qed.

Lemma Reducer_max_Permutation (vs vs' : list Q) :
  Permutation vs vs' -> option_Qeq (Reducer_max vs) (Reducer_max vs').
Proof.
  intros HP.
  pose proof (Reducer_max_spec vs) as H. pose proof (Reducer_max_spec vs') as H'.
  destruct (Reducer_max vs) as [m|], (Reducer_max vs') as [m'|]; cbn [option_Qeq].
  - destruct H as [Hin Hall], H' as [Hin' Hall'].
    apply Qle_antisym.
    + apply Hall'. apply (Permutation_in _ HP), Hin.
    + apply Hall. apply (Permutation_in _ (Permutation_sym HP)), Hin'.
  - subst vs'. apply Permutation_sym, Permutation_nil in HP. subst vs.
    destruct H as [[] _].
  - subst vs. apply Permutation_nil in HP. subst vs'. destruct H' as [[] _].
  - exact I.
Qed.

Lemma insert_sorted_Qeq (x x' : Q) (s s' : list Q) :
  (x == x')%Q -> Forall2 Qeq s s' ->
  Forall2 Qeq (insert_sorted x s) (insert_sorted x' s').
Proof.
  intros Hx H. induction H as [|y y' s s' Hy Hss IH]; cbn [insert_sorted].
  - constructor; [exact Hx|constructor].
  - rewrite (Qleb_comp x x' Hx y y' Hy).
    destruct (Qle_bool x' y').
    + constructor; [exact Hx|]. constructor; assumption.
    + constructor; assumption.
Qed.

Lemma Forall2_Qeq_refl (s : list Q) : Forall2 Qeq s s.
Proof. induction s; constructor; [reflexivity|assumption]. Qed.

Lemma Forall2_Qeq_trans (s1 s2 s3 : list Q) :
  Forall2 Qeq s1 s2 -> Forall2 Qeq s2 s3 -> Forall2 Qeq s1 s3.
Proof.
  intros H. revert s3. induction H as [|x y s1 s2 Hxy _ IH]; intros s3 H23.
  - inversion H23. constructor.
  - inversion H23 as [|? z ? s3' Hyz Hrest]; subst.
    constructor; [rewrite Hxy; exact Hyz|apply IH, Hrest].
Qed.

Lemma Qle_bool_false_lt (x y : Q) : Qle_bool x y = false -> (y < x)%Q.
Proof.
  intros H. apply Qnot_le_lt. intros Hle. apply Qle_bool_iff in Hle. congruence.
Qed.

(** Inserting two values in either order gives the same ranks. *)
Lemma insert_sorted_swap (x y : Q) (s : list Q) :
  Forall2 Qeq (insert_sorted x (insert_sorted y s)) (insert_sorted y (insert_sorted x s)).
Proof.
  induction s as [|z s IH]; cbn [insert_sorted].
  - destruct (Qle_bool x y) eqn:Exy, (Qle_bool y x) eqn:Eyx; try apply Forall2_Qeq_refl.
    + apply Qle_bool_iff in Exy, Eyx.
      assert (x == y)%Q by (apply Qle_antisym; assumption).
      repeat constructor; [assumption|symmetry; assumption].
    + apply Qle_bool_false_lt in Exy, Eyx. exfalso.
      apply (Qlt_irrefl x). eapply Qlt_trans; eassumption.
  - destruct (Qle_bool y z) eqn:Eyz, (Qle_bool x z) eqn:Exz; cbn [insert_sorted].
    + destruct (Qle_bool x y) eqn:Exy, (Qle_bool y x) eqn:Eyx;
        rewrite ?Exz, ?Eyz; try apply Forall2_Qeq_refl.
      * apply Qle_bool_iff in Exy, Eyx.
        assert (x == y)%Q by (apply Qle_antisym; assumption).
        constructor; [assumption|]. constructor; [symmetry; assumption|].
        apply Forall2_Qeq_refl.
      * apply Qle_bool_false_lt in Exy, Eyx. exfalso.
        apply (Qlt_irrefl x). eapply Qlt_trans; eassumption.
    + assert (Qle_bool x y = false) as ->.
      { destruct (Qle_bool x y) eqn:Exy; [|reflexivity].
        apply Qle_bool_iff in Exy, Eyz. apply Qle_bool_false_lt in Exz.
        exfalso. apply (Qlt_irrefl x).
        eapply Qle_lt_trans; [exact Exy|]. eapply Qle_lt_trans; eassumption. }
      rewrite Exz, Eyz. apply Forall2_Qeq_refl.
    + assert (Qle_bool y x = false) as ->.
      { destruct (Qle_bool y x) eqn:Eyx; [|reflexivity].
        apply Qle_bool_iff in Eyx, Exz. apply Qle_bool_false_lt in Eyz.
        exfalso. apply (Qlt_irrefl y).
        eapply Qle_lt_trans; [exact Eyx|]. eapply Qle_lt_trans; eassumption. }
      rewrite Eyz, Exz. apply Forall2_Qeq_refl.
    + rewrite Exz, Eyz. constructor; [reflexivity|exact IH].
Qed.

Lemma sort_values_Permutation (vs vs' : list Q) :
  Permutation vs vs' -> Forall2 Qeq (sort_values vs) (sort_values vs').
Proof.
  induction 1 as [|x l l' _ IH|x y l|l l' l'' _ IH1 _ IH2];
    cbn [sort_values fold_right].
  - constructor.
  - apply insert_sorted_Qeq; [reflexivity|exact IH].
  - apply insert_sorted_swap.
  - eapply Forall2_Qeq_trans; eassumption.
Qed.

Lemma Forall2_Qeq_lookup (s s' : list Q) (i : nat) :
  Forall2 Qeq s s' -> option_Qeq (s !! i) (s' !! i).
Proof.
  intros H. revert i. induction H as [|x y s s' Hxy _ IH]; intros [|i]; cbn;
    try exact I; [exact Hxy|apply IH].
Qed.

Lemma Reducer_median_Permutation (vs vs' : list Q) :
  Permutation vs vs' -> option_Qeq (Reducer_median vs) (Reducer_median vs').
Proof.
  intros HP. pose proof (sort_values_Permutation vs vs' HP) as HF.
  unfold Reducer_median. cbv zeta.
  rewrite <- (Forall2_length _ _ _ HF).
  set (n := length (sort_values vs)).
  destruct (Nat.odd n); [apply Forall2_Qeq_lookup, HF|].
  pose proof (Forall2_Qeq_lookup _ _ (Nat.div n 2 - 1) HF) as Ha.
  pose proof (Forall2_Qeq_lookup _ _ (Nat.div n 2) HF) as Hb.
  destruct (sort_values vs !! (Nat.div n 2 - 1)%nat) as [a|],
           (sort_values vs' !! (Nat.div n 2 - 1)%nat) as [a'|];
    cbn [option_Qeq] in Ha; try contradiction; [|exact I].
  destruct (sort_values vs !! Nat.div n 2) as [b|],
           (sort_values vs' !! Nat.div n 2) as [b'|];
    cbn [option_Qeq] in Hb |- *; try contradiction; [|exact I].
  rewrite Ha, Hb. reflexivity.
Qed.

(** The value of a median composite, when every scene of the year has
    the band. *)
Lemma median_composite_value (c : @ImageCollection geometry) (year band : string) p :
  (forall img, In img c -> has_year year img = true -> In band (bandNames img)) ->
  band_value (annual_composite_median c year) band p
  = Reducer_median (omap (fun img : Image => band_value img band p)
                         (List.filter (has_year year) c)).
Proof.
  intros Hband. unfold annual_composite_median.
  rewrite band_value_set, filterMetadata_year.
  destruct (List.filter (has_year year) c) as [|first rest] eqn:Ef; [reflexivity|].
  unfold median. apply band_value_reduce.
  assert (In first (List.filter (has_year year) c)) as Hf by (rewrite Ef; left; reflexivity).
  apply filter_In in Hf as [Hin Hy]. apply Hband; assumption.
Qed.

(** The value of a maximum-index composite. *)
Lemma maximum_composite_value (c : @ImageCollection geometry) (year : string) comp p :
  annual_composite_maximum_ndvi c year = Ok comp ->
  band_value comp "nd" p
  = Reducer_max (omap (fun img : Image => index_of img p) (List.filter (has_year year) c)).
Proof.
  unfold annual_composite_maximum_ndvi. rewrite filterMetadata_year. intros H.
  destruct (mapM ndvi (List.filter (has_year year) c)) as [ndvis|] eqn:Hmap;
    [|discriminate H].
  cbn [mbind result_bind] in H. injection H as <-. rewrite band_value_set.
  apply mapM_Ok_Forall2 in Hmap.
  rewrite <- (Forall2_omap ndvi (fun out : Image => band_value out "nd" p)
                (fun img : Image => index_of img p) _ ndvis);
    [|intros img out Hout; unfold index_of; rewrite Hout; reflexivity|exact Hmap].
  destruct Hmap as [|img out scenes ndvis' Hout _]; [reflexivity|].
  unfold collection_max. apply band_value_reduce.
  rewrite (ndvi_bands img out Hout). left. reflexivity.
Qed.

(** The median composite of a year does not depend on the order of the
    scenes in the collection (on which platform is merged first, for
    one): on two collections that hold the same scenes, each pixel of a
    band that the scenes of the year all have gets the same value. *)
Theorem annual_composite_median_order (c c' : @ImageCollection geometry)
    (year band : string) p :
  Permutation c c' ->
  (forall img, In img c -> has_year year img = true -> In band (bandNames img)) ->
  option_Qeq (band_value (annual_composite_median c year) band p)
             (band_value (annual_composite_median c' year) band p).
Proof.
  intros HP Hband.
  rewrite (median_composite_value c year band p Hband).
  rewrite (median_composite_value c' year band p).
  - apply Reducer_median_Permutation, Permutation_omap, Permutation_filter_bool, HP.
  - intros img Hin. apply Hband. apply (Permutation_in _ (Permutation_sym HP)), Hin.
Qed.

(** Nor does the maximum-index composite: on two collections that hold
    the same scenes it fails on both or on neither, and when it succeeds
    every pixel gets the same value. *)
Theorem annual_composite_maximum_ndvi_order (c c' : @ImageCollection geometry)
    (year : string) :
  Permutation c c' ->
  match annual_composite_maximum_ndvi c year, annual_composite_maximum_ndvi c' year with
  | Ok comp, Ok comp' =>
      forall p, option_Qeq (band_value comp "nd" p) (band_value comp' "nd" p)
  | Err _, Err _ => True
  | _, _ => False
  end.
Proof.
  intros HP.
  pose proof (Permutation_filter_bool (has_year year) c c' HP) as HPf.
  assert (forall l l' : @ImageCollection geometry,
            Permutation l l' -> (exists nds, mapM ndvi l = Ok nds) ->
            exists nds', mapM ndvi l' = Ok nds') as Htotal.
  { intros l l' Hl [nds Hout]. apply mapM_total. intros img Hin.
    apply mapM_Ok_Forall2 in Hout.
    destruct (Forall2_In_l _ _ _ img Hout) as (nd & _ & Hnd); [|eauto].
    apply (Permutation_in _ (Permutation_sym Hl)), Hin. }
  destruct (annual_composite_maximum_ndvi c year) as [comp|msg] eqn:E,
           (annual_composite_maximum_ndvi c' year) as [comp'|msg'] eqn:E'.
  - intros p.
    rewrite (maximum_composite_value c year comp p E),
            (maximum_composite_value c' year comp' p E').
    apply Reducer_max_Permutation, Permutation_omap, HPf.
  - unfold annual_composite_maximum_ndvi in E, E'.
    rewrite filterMetadata_year in E, E'.
    destruct (Htotal _ _ HPf) as [nds' Hout'].
    { destruct (mapM ndvi (List.filter (has_year year) c)); [eauto|discriminate E]. }
    rewrite Hout' in E'. discriminate E'.
  - unfold annual_composite_maximum_ndvi in E, E'.
    rewrite filterMetadata_year in E, E'.
    destruct (Htotal _ _ (Permutation_sym HPf)) as [nds Hout].
    { destruct (mapM ndvi (List.filter (has_year year) c')); [eauto|discriminate E']. }
    rewrite Hout in E. discriminate E.
  - exact I.
Qed.

(** *** The export loop: what every task is given *)

Section ExportLoop.

Variable intersects : geometry -> geometry -> bool.
Variable contains : geometry -> pixel -> bool.
Variable bounds : geometry -> geometry.

Lemma range_lookup_bounds (a b : Z) (i : nat) (y : Z) :
  range a b !! i = Some y -> y = a + Z.of_nat i /\ a <= y < b.
Proof.
  intros H.
  assert (i < length (range a b))%nat as Hlt by (apply lookup_lt_is_Some; eauto).
  unfold range in Hlt. rewrite length_map, length_seq in Hlt.
  rewrite range_lookup in H by lia. injection H as <-. lia.
Qed.

(** Whenever the export loop completes it has started exactly 21 tasks,
    each for the bounds of the study region, the folder [EarthEngine],
    the scale 30 and the reference system [EPSG:32617], and each
    described by a year between 1995 and 2015. *)
Theorem export_tasks_fields (detroit_msa : geometry) (surface_water cdl : Image)
    (LT05 LE07 : ImageCollection) (tasks : list ExportTask) :
  export_tasks intersects contains bounds detroit_msa surface_water cdl LT05 LE07
  = Ok tasks ->
  length tasks = 21%nat /\
  forall task, In task tasks ->
    region task = bounds detroit_msa /\ folder task = "EarthEngine" /\
    scale task = 30 /\ crs task = "EPSG:32617" /\
    exists year, 1995 <= year <= 2015 /\ description task = description_of year.
Proof.
  unfold export_tasks. intros H.
  destruct (composites_ndvi_first intersects contains detroit_msa LT05 LE07)
    as [comps|] eqn:Ecomps; [|discriminate H].
  cbn [mbind result_bind] in H.
  destruct (water surface_water) as [w|]; [|discriminate H].
  cbn [mbind result_bind] in H.
  assert (length comps = 21%nat) as Hlen.
  { unfold composites_ndvi_first in Ecomps.
    destruct (lt5_le7_collection intersects detroit_msa LT05 LE07) as [c|];
      [|discriminate Ecomps].
    cbn [mbind result_bind] in Ecomps.
    destruct (mapM _ combined_dates) as [imgs|] eqn:Eimgs; [|discriminate Ecomps].
    cbn [mbind result_bind] in Ecomps. injection Ecomps as <-.
    apply mapM_Ok_Forall2 in Eimgs.
    rewrite length_map, <- (Forall2_length _ _ _ Eimgs). reflexivity. }
  rewrite Hlen in H. apply mapM_Ok_Forall2 in H.
  split; [rewrite <- (Forall2_length _ _ _ H); reflexivity|].
  intros task Hin.
  destruct (Forall2_In_r _ _ _ task H Hin) as (i & _ & Hi).
  cbv beta in Hi.
  match type of Hi with
  | match ?x with _ => _ end = _ => destruct x as [comp|]; [|discriminate Hi]
  end.
  destruct (updateMask comp w) as [m|]; [|discriminate Hi].
  cbn [mbind result_bind] in Hi.
  destruct (updateMask m cdl) as [img_masked|]; [|discriminate Hi].
  cbn [mbind result_bind] in Hi.
  destruct (range 1995 2016 !! i) as [year|] eqn:Eyear; [|discriminate Hi].
  injection Hi as <-. cbn [region folder scale crs description].
  do 4 (split; [reflexivity|]).
  exists year. split; [|reflexivity].
  apply range_lookup_bounds in Eyear. lia.
Qed.

End ExportLoop.

End Further.

(** ** Instances of the further properties *)

(** The example scene is preprocessed; without its [B4] band it is not. *)
Lemma cloud_mask_succeeds_iff_witness :
  sensing_time_ok example_raw_scene /\
  (exists out, cloud_mask example_raw_scene = Ok out) /\
  sensing_time_ok example_scene_without_nir /\
  find_band "B4" (bands example_scene_without_nir) = None /\
  (exists msg, cloud_mask example_scene_without_nir = Err msg).
Proof.
  assert (sensing_time_ok example_raw_scene) as Ht
    by (exists "2011-07-04T16:05:13.5678Z"; reflexivity).
  assert (sensing_time_ok example_scene_without_nir) as Ht'
    by (exists "2011-07-04T16:05:13.5678Z"; reflexivity).
  split; [exact Ht|]. split.
  { apply (cloud_mask_succeeds_iff example_raw_scene Ht).
    exact (proj1 (raw_scene_ok_raw_scene _ _ _ _ _ _)). }
  split; [exact Ht'|]. split; [reflexivity|].
  destruct (cloud_mask example_scene_without_nir) as [out|msg] eqn:E; [|eauto].
  destruct (proj1 (cloud_mask_succeeds_iff example_scene_without_nir Ht')
                  (ex_intro _ out E) "B4" "NIR") as [b Hb].
  - unfold band_renames. cbn [In]. tauto.
  - discriminate Hb.
Defined.


Lemma ndvi_of_preprocessed_witness :
  exists (nd : @Image columns) (v : Q),
    ndvi (get_ok example_raw_scene
            (select canonical_bands
               (get_ok example_raw_scene (cloud_mask example_raw_scene)))) = Ok nd /\
    band_value example_raw_scene "B4" (0, 0) = Some 5000%Q /\
    band_value example_raw_scene "B3" (0, 0) = Some 2000%Q /\
    band_value nd "nd" (0, 0) = Some v /\ (v == 3 # 7)%Q.
Proof.
  set (out := get_ok example_raw_scene (cloud_mask example_raw_scene)).
  set (img := get_ok example_raw_scene (select canonical_bands out)).
  destruct (ndvi_of_preprocessed example_raw_scene img) as (nd & Hnd & Hvals).
  { exists out. split; vm_compute; reflexivity. }
  specialize (Hvals (0, 0)).
  assert ((if kept (band_value example_raw_scene "pixel_qa") (0, 0)
           then match band_value example_raw_scene "B4" (0, 0),
                      band_value example_raw_scene "B3" (0, 0) with
                | Some n, Some r => normalized_difference (n / 10000) (r / 10000)
                | _, _ => None
                end
           else None) = Some (3000000000000000 # 7000000000000000)%Q) as E by (vm_compute; reflexivity).
  rewrite E in Hvals.
  exists nd, (3000000000000000 # 7000000000000000)%Q. split; [exact Hnd|].
  split; [vm_compute; reflexivity|]. split; [vm_compute; reflexivity|].
  split; [exact Hvals|]. reflexivity.
Defined.

(** The winter scene without [B4] does not qualify, and the collection
    is assembled all the same. *)
Lemma combined_collection_succeeds_iff_witness :
  exists c : @ImageCollection columns,
    lt5_le7_collection columns_intersects example_region
                       LT05_with_winter_scene LE07_example = Ok c.
Proof.
  assert (forall raw : @Image columns,
            In raw (LT05_with_winter_scene ++ LE07_example) ->
            sensing_time_ok raw /\
            (passes columns_intersects example_region raw = true -> raw_bands_ok raw))
    as Hall.
  { intros raw Hin.
    cbn [LT05_with_winter_scene LT05_example LE07_example app In] in Hin.
    repeat (destruct Hin as [<-|Hin];
            [split; [eexists; reflexivity|
                     first [intros _; exact (proj1 (raw_scene_ok_raw_scene _ _ _ _ _ _))
                           |intros Hp; vm_compute in Hp; discriminate Hp]]|]).
    destruct Hin. }
  apply (combined_collection_succeeds_iff columns_intersects example_region
           LT05_with_winter_scene LE07_example).
  - intros raw Hin _. apply (Hall raw Hin).
  - intros raw Hin Hq. apply (Hall raw Hin). apply passes_iff, Hq.
Defined.


Lemma lt5_le7_ndvi_spec_witness :
  exists nds : @ImageCollection columns,
    lt5_le7_ndvi columns_intersects example_region LT05_example LE07_example = Ok nds /\
    length nds = 2%nat.
Proof.
  set (c := get_ok [] (lt5_le7_collection columns_intersects example_region
                         LT05_example LE07_example)).
  assert (lt5_le7_collection columns_intersects example_region LT05_example LE07_example
          = Ok c) as Hc by (vm_compute; reflexivity).
  assert (length c = 2%nat) as Hlen by (vm_compute; reflexivity).
  clearbody c.
  destruct (lt5_le7_ndvi_spec columns_intersects example_region
              LT05_example LE07_example c Hc) as (nds & Hnds & Hl & _).
  exists nds. split; [exact Hnds|]. rewrite Hl. exact Hlen.
Defined.

Lemma composites_succeeds_iff_witness :
  (exists outs : @ImageCollection columns,
     composites columns_intersects columns_contains example_region full_archive [] = Ok outs /\
     length outs = 21%nat /\
     forall nd, In nd outs -> bandNames nd = ["nd"]) /\
  (exists msg,
     composites columns_intersects columns_contains example_region
                LT05_example LE07_example = Err msg).
Proof.
  split.
  - set (c := get_ok [] (lt5_le7_collection columns_intersects example_region
                           full_archive [])).
    assert (lt5_le7_collection columns_intersects example_region full_archive [] = Ok c)
      as Hc by (vm_compute; reflexivity).
    assert (forallb (fun year => existsb (has_year year) c) combined_dates = true)
      as Hall by (vm_compute; reflexivity).
    clearbody c.
    destruct (composites_succeeds_iff columns_intersects columns_contains
                example_region full_archive [] c Hc) as [Hiff Hout].
    destruct (proj2 Hiff) as [outs Houts].
    { intros year Hyear. rewrite forallb_forall in Hall.
      specialize (Hall year Hyear). apply existsb_exists in Hall as (img & Hin & Hy).
      exists img. split; [exact Hin|]. apply has_year_iff, Hy. }
    exists outs. split; [exact Houts|]. apply Hout, Houts.
  - eexists. vm_compute. reflexivity.
Defined.

Lemma composites_ndvi_first_spec_witness :
  exists (comps : @ImageCollection columns) (with_scene without_scene : @Image columns),
    composites_ndvi_first columns_intersects columns_contains example_region
                          LT05_example LE07_example = Ok comps /\
    length comps = 21%nat /\
    comps !! 16%nat = Some with_scene /\
    image_get with_scene "year" = Some (PString "2011") /\
    bandNames with_scene = ["nd"] /\
    band_value with_scene "nd" (15, 0) = None /\
    comps !! 0%nat = Some without_scene /\
    image_get without_scene "year" = Some (PString "1995") /\
    bandNames without_scene = [].
Proof.
  set (c := get_ok [] (lt5_le7_collection columns_intersects example_region
                         LT05_example LE07_example)).
  assert (lt5_le7_collection columns_intersects example_region LT05_example LE07_example
          = Ok c) as Hc by (vm_compute; reflexivity).
  assert (existsb (has_year "2011") c = true) as H2011 by (vm_compute; reflexivity).
  assert (existsb (has_year "1995") c = false) as H1995 by (vm_compute; reflexivity).
  clearbody c.
  destruct (composites_ndvi_first_spec columns_intersects columns_contains
              example_region LT05_example LE07_example c Hc)
    as (comps & Hcomps & Hlen & Hat).
  destruct (Hat 16%nat "2011" eq_refl) as (a & Ha & Hya & Hba & Hma).
  destruct (Hat 0%nat "1995" eq_refl) as (b & Hb & Hyb & Hbb & _).
  rewrite H2011 in Hba. rewrite H1995 in Hbb.
  exists comps, a, b.
  split; [exact Hcomps|]. split; [exact Hlen|]. split; [exact Ha|].
  split; [exact Hya|]. split; [exact Hba|].
  split; [apply Hma; vm_compute; reflexivity|].
  split; [exact Hb|]. split; [exact Hyb|]. exact Hbb.
Defined.

Lemma annual_composite_median_order_witness :
  Permutation example_collection (rev example_collection) /\
  option_Qeq (band_value (annual_composite_median example_collection "2000") "NIR" (0, 0))
             (band_value (annual_composite_median (rev example_collection) "2000")
                         "NIR" (0, 0)) /\
  exists v : Q,
    band_value (annual_composite_median example_collection "2000") "NIR" (0, 0) = Some v /\
    (v == 3 # 4)%Q.
Proof.
  split; [apply Permutation_rev|].
  split; [|eexists; split; [vm_compute; reflexivity|reflexivity]].
  apply (annual_composite_median_order example_collection (rev example_collection)
           "2000" "NIR" (0, 0) (Permutation_rev _)).
  intros img [<-|[<-|[<-|[]]]] _; vm_compute; tauto.
Defined.

Lemma annual_composite_maximum_ndvi_order_witness :
  Permutation example_collection (rev example_collection) /\
  match annual_composite_maximum_ndvi example_collection "2000",
        annual_composite_maximum_ndvi (rev example_collection) "2000" with
  | Ok comp, Ok comp' =>
      forall p, option_Qeq (band_value comp "nd" p) (band_value comp' "nd" p)
  | Err _, Err _ => True
  | _, _ => False
  end.
Proof.
  split; [apply Permutation_rev|].
  apply (annual_composite_maximum_ndvi_order example_collection (rev example_collection)
           "2000" (Permutation_rev _)).
Defined.

Lemma export_tasks_fields_witness :
  exists tasks : list (@ExportTask columns),
    export_tasks columns_intersects columns_contains columns_bounds example_region
                 surface_water_example cdl_example LT05_example LE07_example = Ok tasks /\
    length tasks = 21%nat /\
    forall task, In task tasks ->
      region task = columns_bounds example_region /\ folder task = "EarthEngine" /\
      scale task = 30 /\ crs task = "EPSG:32617" /\
      exists year, 1995 <= year <= 2015 /\ description task = description_of year.
Proof.
  set (tasks := get_ok [] (export_tasks columns_intersects columns_contains columns_bounds
                             example_region surface_water_example cdl_example
                             LT05_example LE07_example)).
  assert (export_tasks columns_intersects columns_contains columns_bounds example_region
            surface_water_example cdl_example LT05_example LE07_example = Ok tasks)
    as Htasks by (vm_compute; reflexivity).
  clearbody tasks.
  exists tasks. split; [exact Htasks|].
  apply (export_tasks_fields columns_intersects columns_contains columns_bounds
           example_region surface_water_example cdl_example
           LT05_example LE07_example tasks Htasks).
Defined.
